(** * Disaster Connect: the realtime voice session manager

    A shallow embedding of the session service ([GeminiLiveService]), of the
    report handler the UI installs on it, and of the PCM codec the service
    calls, together with the properties the specification states about them.

    Times and samples are JavaScript numbers in the program; they are
    rationals ([Q]) here.  Device resources (audio contexts, media streams,
    audio nodes, channels) are handles drawn from a counter, and the sets of
    handles that are still open are kept in a [World] next to the fields of
    the service. *)

From Stdlib Require Import ZArith QArith Qabs Qpower Lia Lqa List.
From Stdlib Require Import Strings.Byte.
From stdpp Require Import base decidable option list gmap strings pretty.

Local Open Scope Z_scope.

(** ** 1. PCM codec *)

Module Codec.

(** A decoded buffer, as the playback side sees it: interleaved samples, the
    sample rate and the channel count.  Its duration is derived, as in the
    Web Audio [AudioBuffer]: frames over sample rate. *)
Record AudioBuffer := {
  samples : list Q;
  sampleRate : positive;
  numberOfChannels : positive
}.

Definition frameCount (b : AudioBuffer) : Z :=
  Z.of_nat (length (samples b)) / Z.pos (numberOfChannels b).

Definition duration (b : AudioBuffer) : Q :=
  Qmake (frameCount b) (sampleRate b).

(** Truncation toward zero, the conversion a typed 16-bit array applies to a
    fractional value. *)
Definition truncate (x : Q) : Z := Z.quot (Qnum x) (Z.pos (Qden x)).

Definition clamp16 (z : Z) : Z := Z.max (-32768) (Z.min 32767 z).

(** Modelled from the spec: the sample quantiser of the missing codec module
    (audioUtils): "maps each sample linearly to a 16-bit signed integer
    (clamped to representable range)", "multiply by 32767 and truncate". *)
Definition quantize (s : Q) : Z := clamp16 (truncate (s * 32767)).

(** Modelled from the spec: the inverse mapping of the missing codec module,
    from a 16-bit signed integer back to a normalised sample. *)
Definition dequantize (k : Z) : Q := Qmake k 32767.

Definition byte_of_Z (z : Z) : byte :=
  match Byte.of_N (Z.to_N (z mod 256)) with
  | Some b => b
  | None => "000"%byte
  end.

Definition Z_of_byte (b : byte) : Z := Z.of_N (Byte.to_N b).

(** A signed 16-bit integer as two bytes, low byte first. *)
Definition int16_le (k : Z) : list byte :=
  let u := k mod 65536 in [byte_of_Z (u mod 256); byte_of_Z (u / 256)].

Definition int16_of_le (lo hi : byte) : Z :=
  let u := Z_of_byte lo + 256 * Z_of_byte hi in
  if u <? 32768 then u else u - 65536.

(** Modelled from the spec: [encode] of the missing codec module (audioUtils):
    every sample quantised, little-endian, concatenated. *)
Definition encode (l : list Q) : list byte :=
  flat_map (fun s => int16_le (quantize s)) l.

Fixpoint decode_samples (bs : list byte) : list Q :=
  match bs with
  | lo :: hi :: rest => dequantize (int16_of_le lo hi) :: decode_samples rest
  | _ => []
  end.

(** Modelled from the spec: [decode] of the missing codec module (audioUtils):
    "inverse mapping producing a playable buffer at the declared sample rate;
    fails with DecodeError on malformed or truncated byte lengths (not a
    multiple of the sample frame size)". *)
Definition decode (bs : list byte) (rate channels : positive) : option AudioBuffer :=
  if (Z.of_nat (length bs) mod (2 * Z.pos channels) =? 0)
  then Some {| samples := decode_samples bs;
               sampleRate := rate;
               numberOfChannels := channels |}
  else None.

End Codec.

(** ** 2. The helpers the service imports from the codec module *)

(** The four functions [GeminiLiveService] imports from "./audioUtils", as an
    interface the service is embedded over.  [float32ToInt16PCM] stands for
    the conversion followed by the byte view of its buffer
    ([new Uint8Array(pcmData.buffer)]); [decodeAudioData] returns [None] when
    the call throws. *)
Class AudioUtils := {
  arrayBufferToBase64 : list byte -> string;
  base64ToUint8Array : string -> list byte;
  float32ToInt16PCM : list Q -> list byte;
  decodeAudioData : list byte -> option Codec.AudioBuffer
}.

(** Modelled from the spec: an instance of the missing module built from the
    codec of section 1.  The transport text is the binary string (one
    character per byte); output audio is mono at 24 kHz, the rate of the
    output context. *)
Definition specAudioUtils : AudioUtils := {|
  arrayBufferToBase64 := Stdlib.Strings.String.string_of_list_byte;
  base64ToUint8Array := Stdlib.Strings.String.list_byte_of_string;
  float32ToInt16PCM := Codec.encode;
  decodeAudioData := fun bs => Codec.decode bs 24000 1
|}.

(** ** 3. Data of the session service *)

(** [Math.max] on two numbers; it returns its first argument when the second
    does not exceed it. *)
Definition Math_max (a b : Q) : Q := if Qle_bool b a then a else b.

(** A JavaScript number as far as the program distinguishes them. *)
Inductive JsNumber :=
| NaN
| Infinity (negative : bool)
| Num (q : Q).

(** A JavaScript value that can sit in a field of a tool-call argument. *)
Inductive JsValue :=
| VUndefined
| VNull
| VBool (b : bool)
| VNumber (n : JsNumber)
| VString (s : string).

(** The argument object of a [reportEmergency] call (the draft).  The two
    coordinates are kept as raw values: the UI coerces them itself. *)
Module Draft.
Record t := {
  emergencyType : string;
  description : string;
  peopleCount : option JsNumber;
  criticalNeeds : option string;
  locationName : option string;
  latitude : JsValue;
  longitude : JsValue
}.
End Draft.

Record GeoLocation := { lat : JsNumber; lng : JsNumber }.

Record FunctionCall := {
  fc_id : string;
  fc_name : string;
  fc_args : Draft.t
}.

Record ToolResult := { status : string; ticketId : string }.

Record FunctionResponse := {
  fr_id : string;
  fr_name : string;
  fr_result : ToolResult
}.

(** An inbound message, reduced to the two parts [handleMessage] reads:
    [message.serverContent?.modelTurn?.parts?.[0]?.inlineData?.data] and
    [message.toolCall] (its [functionCalls]). *)
Record LiveServerMessage := {
  inlineData : option string;
  toolCall : option (list FunctionCall)
}.

Definition handle := nat.

(** What the service does to the outside, in order. *)
Inductive Event :=
| StatusChange (text : string)                      (* onStatusChange(text) *)
| AudioLevel (meanSquare : JsNumber)                (* onAudioLevel(sqrt meanSquare) *)
| ReportSubmitted (args : Draft.t)                   (* onReportSubmitted(args) *)
| LiveConnect (channel : handle) (deviceLocation : option GeoLocation)
| SendRealtimeInput (session : handle) (mimeType data : string)
| SendToolResponse (session : handle) (functionResponses : list FunctionResponse)
| SourceStart (ctx : handle) (when : Q) (buffer : Codec.AudioBuffer)
| ConsoleError (text : string)
| NodeDisconnect (node : handle)
| HandlerCleared (node : handle)                    (* processor.onaudioprocess = null *)
| TrackStop (stream : handle)
| ContextClose (ctx : handle).

(** The private fields of [GeminiLiveService] and, for each public callback
    slot, whether a listener is installed. *)
Record Service := {
  inputAudioContext : option handle;
  outputAudioContext : option handle;
  stream : option handle;
  processor : option handle;
  source : option handle;
  nextStartTime : Q;
  sessionPromise : option handle;
  currentSession : option handle;
  onReportSubmitted : bool;
  onAudioLevel : bool;
  onStatusChange : bool
}.

(** The resources that exist outside the service object. *)
Record World := {
  next_handle : handle;
  open_contexts : gset handle;      (* audio contexts created and not closed *)
  live_streams : gset handle;       (* media streams whose tracks run *)
  wired_nodes : gset handle;        (* source and processor nodes, connected *)
  capture_handlers : gset handle;   (* processors with onaudioprocess set *)
  open_channels : gset handle       (* channels opened and not closed *)
}.

Record Sys := {
  svc : Service;
  world : World;
  log : list Event
}.

(** [new GeminiLiveService()] with the three listeners as given. *)
Definition newService (report level status : bool) : Service := {|
  inputAudioContext := None;
  outputAudioContext := None;
  stream := None;
  processor := None;
  source := None;
  nextStartTime := 0;
  sessionPromise := None;
  currentSession := None;
  onReportSubmitted := report;
  onAudioLevel := level;
  onStatusChange := status
|}.

Definition emptyWorld : World := {|
  next_handle := O;
  open_contexts := ∅;
  live_streams := ∅;
  wired_nodes := ∅;
  capture_handlers := ∅;
  open_channels := ∅
|}.

Definition initial (report level status : bool) : Sys :=
  {| svc := newService report level status; world := emptyWorld; log := [] |}.

(** ** 4. The session service *)

Definition emit (e : Event) (s : Sys) : Sys :=
  {| svc := svc s; world := world s; log := log s ++ [e] |}.

(** An optional call [this.listener?.(...)]. *)
Definition notify (listener : Service -> bool) (e : Event) (s : Sys) : Sys :=
  if listener (svc s) then emit e s else s.

Definition with_svc (f : Service -> Service) (s : Sys) : Sys :=
  {| svc := f (svc s); world := world s; log := log s |}.

Definition with_world (f : World -> World) (s : Sys) : Sys :=
  {| svc := svc s; world := f (world s); log := log s |}.

Definition set_contexts (i o : option handle) (v : Service) : Service :=
  {| inputAudioContext := i; outputAudioContext := o;
     stream := stream v; processor := processor v; source := source v;
     nextStartTime := nextStartTime v; sessionPromise := sessionPromise v;
     currentSession := currentSession v;
     onReportSubmitted := onReportSubmitted v; onAudioLevel := onAudioLevel v;
     onStatusChange := onStatusChange v |}.

Definition set_stream (x : option handle) (v : Service) : Service :=
  {| inputAudioContext := inputAudioContext v;
     outputAudioContext := outputAudioContext v;
     stream := x; processor := processor v; source := source v;
     nextStartTime := nextStartTime v; sessionPromise := sessionPromise v;
     currentSession := currentSession v;
     onReportSubmitted := onReportSubmitted v; onAudioLevel := onAudioLevel v;
     onStatusChange := onStatusChange v |}.

Definition set_nodes (src proc : option handle) (v : Service) : Service :=
  {| inputAudioContext := inputAudioContext v;
     outputAudioContext := outputAudioContext v;
     stream := stream v; processor := proc; source := src;
     nextStartTime := nextStartTime v; sessionPromise := sessionPromise v;
     currentSession := currentSession v;
     onReportSubmitted := onReportSubmitted v; onAudioLevel := onAudioLevel v;
     onStatusChange := onStatusChange v |}.

Definition set_nextStartTime (t : Q) (v : Service) : Service :=
  {| inputAudioContext := inputAudioContext v;
     outputAudioContext := outputAudioContext v;
     stream := stream v; processor := processor v; source := source v;
     nextStartTime := t; sessionPromise := sessionPromise v;
     currentSession := currentSession v;
     onReportSubmitted := onReportSubmitted v; onAudioLevel := onAudioLevel v;
     onStatusChange := onStatusChange v |}.

Definition set_sessionPromise (x : option handle) (v : Service) : Service :=
  {| inputAudioContext := inputAudioContext v;
     outputAudioContext := outputAudioContext v;
     stream := stream v; processor := processor v; source := source v;
     nextStartTime := nextStartTime v; sessionPromise := x;
     currentSession := currentSession v;
     onReportSubmitted := onReportSubmitted v; onAudioLevel := onAudioLevel v;
     onStatusChange := onStatusChange v |}.

Definition set_currentSession (x : option handle) (v : Service) : Service :=
  {| inputAudioContext := inputAudioContext v;
     outputAudioContext := outputAudioContext v;
     stream := stream v; processor := processor v; source := source v;
     nextStartTime := nextStartTime v; sessionPromise := sessionPromise v;
     currentSession := x;
     onReportSubmitted := onReportSubmitted v; onAudioLevel := onAudioLevel v;
     onStatusChange := onStatusChange v |}.

(** Taking a fresh handle. *)
Definition bump (w : World) : World :=
  {| next_handle := S (next_handle w);
     open_contexts := open_contexts w; live_streams := live_streams w;
     wired_nodes := wired_nodes w; capture_handlers := capture_handlers w;
     open_channels := open_channels w |}.

Definition map_contexts (f : gset handle -> gset handle) (w : World) : World :=
  {| next_handle := next_handle w;
     open_contexts := f (open_contexts w); live_streams := live_streams w;
     wired_nodes := wired_nodes w; capture_handlers := capture_handlers w;
     open_channels := open_channels w |}.

Definition map_streams (f : gset handle -> gset handle) (w : World) : World :=
  {| next_handle := next_handle w;
     open_contexts := open_contexts w; live_streams := f (live_streams w);
     wired_nodes := wired_nodes w; capture_handlers := capture_handlers w;
     open_channels := open_channels w |}.

Definition map_nodes (f : gset handle -> gset handle) (w : World) : World :=
  {| next_handle := next_handle w;
     open_contexts := open_contexts w; live_streams := live_streams w;
     wired_nodes := f (wired_nodes w); capture_handlers := capture_handlers w;
     open_channels := open_channels w |}.

Definition map_handlers (f : gset handle -> gset handle) (w : World) : World :=
  {| next_handle := next_handle w;
     open_contexts := open_contexts w; live_streams := live_streams w;
     wired_nodes := wired_nodes w; capture_handlers := f (capture_handlers w);
     open_channels := open_channels w |}.

Definition map_channels (f : gset handle -> gset handle) (w : World) : World :=
  {| next_handle := next_handle w;
     open_contexts := open_contexts w; live_streams := live_streams w;
     wired_nodes := wired_nodes w; capture_handlers := capture_handlers w;
     open_channels := f (open_channels w) |}.

Definition acquired (h : handle) (X : gset handle) : gset handle := {[h]} ∪ X.
Definition released (h : handle) (X : gset handle) : gset handle := X ∖ {[h]}.

Inductive ConnectError := PermissionError | ConnectionError.

Section Service.

Context {utils : AudioUtils}.

(** [connect], up to and including the call [this.ai.live.connect(...)] whose
    promise is stored in [sessionPromise].  [micGranted] is the outcome of
    [getUserMedia]; when it is refused the [await] throws and the call ends
    there.  The result is the error thrown or the channel being opened.
    Resuming a suspended context changes nothing that is tracked here. *)
Definition connect_begin (micGranted : bool) (userLocation : option GeoLocation)
    (s : Sys) : (ConnectError + handle) * Sys :=
  let s := notify onStatusChange (StatusChange "Initializing Audio...") s in
  let i := next_handle (world s) in
  let s := with_world (fun w => map_contexts (acquired i) (bump w)) s in
  let o := next_handle (world s) in
  let s := with_world (fun w => map_contexts (acquired o) (bump w)) s in
  let s := with_svc (set_contexts (Some i) (Some o)) s in
  let s := notify onStatusChange (StatusChange "Requesting Mic...") s in
  if micGranted then
    let st := next_handle (world s) in
    let s := with_world (fun w => map_streams (acquired st) (bump w)) s in
    let s := with_svc (set_stream (Some st)) s in
    let s := notify onStatusChange (StatusChange "Connecting to HQ...") s in
    let ch := next_handle (world s) in
    let s := with_world (fun w => map_channels (acquired ch) (bump w)) s in
    let s := emit (LiveConnect ch userLocation) s in
    let s := with_svc (set_sessionPromise (Some ch)) s in
    (inr ch, s)
  else (inl PermissionError, s).

(** [handleOpen], the channel's on-open callback. *)
Definition handleOpen (s : Sys) : Sys :=
  let s := notify onStatusChange (StatusChange "Live") s in
  match inputAudioContext (svc s), stream (svc s) with
  | Some _, Some _ =>
      let src := next_handle (world s) in
      let s := with_world bump s in
      let proc := next_handle (world s) in
      let s := with_world bump s in
      let s := with_svc (set_nodes (Some src) (Some proc)) s in
      let s := with_world (map_handlers (acquired proc)) s in
      let s := with_world (map_nodes (acquired src)) s in
      with_world (map_nodes (acquired proc)) s
  | _, _ => s
  end.

(** The last statement of [connect]:
    [this.currentSession = await this.sessionPromise], once the promise of the
    channel [ch] has resolved. *)
Definition connect_resolved (ch : handle) (s : Sys) : Sys :=
  with_svc (set_currentSession (Some ch)) s.

(** A whole [connect] call with nothing interleaved: the channel either opens
    (on-open fires, then the promise resolves) or the promise rejects and the
    [await] throws. *)
Definition connect (micGranted channelOpens : bool)
    (userLocation : option GeoLocation) (s : Sys) : option ConnectError * Sys :=
  match connect_begin micGranted userLocation s with
  | (inl e, s') => (Some e, s')
  | (inr ch, s') =>
      if channelOpens then (None, connect_resolved ch (handleOpen s'))
      else (Some ConnectionError, with_world (map_channels (released ch)) s')
  end.

Definition sumSquares (inputData : list Q) : Q :=
  fold_left (fun sum x => sum + x * x)%Q inputData 0%Q.

Definition meanSquare (inputData : list Q) : JsNumber :=
  match inputData with
  | [] => NaN
  | _ => Num (sumSquares inputData / inject_Z (Z.of_nat (length inputData)))
  end.

(** The capture callback installed by [handleOpen] on the processor. *)
Definition onaudioprocess (inputData : list Q) (s : Sys) : Sys :=
  let s := notify onAudioLevel (AudioLevel (meanSquare inputData)) s in
  let pcmData := float32ToInt16PCM inputData in
  let base64Data := arrayBufferToBase64 pcmData in
  match currentSession (svc s) with
  | Some session => emit (SendRealtimeInput session "audio/pcm;rate=16000" base64Data) s
  | None => s
  end.

Definition successResponse (now : Z) (fc : FunctionCall) : FunctionResponse :=
  {| fr_id := fc_id fc;
     fr_name := fc_name fc;
     fr_result := {| status := "success"; ticketId := pretty now |} |}.

(** One turn of the loop over [message.toolCall.functionCalls]. *)
Definition toolCallStep (now : Z) (acc : Sys * list FunctionResponse)
    (fc : FunctionCall) : Sys * list FunctionResponse :=
  if String.eqb (fc_name fc) "reportEmergency"
  then (notify onReportSubmitted (ReportSubmitted (fc_args fc)) (fst acc),
        snd acc ++ [successResponse now fc])
  else acc.

(** The audio half of [handleMessage]; [currentTime] is the output context's
    clock when the message is handled. *)
Definition handleAudio (currentTime : Q) (m : LiveServerMessage) (s : Sys) : Sys :=
  match inlineData m, outputAudioContext (svc s) with
  | Some base64Audio, Some ctx =>
      if String.eqb base64Audio "" then s else
      let audioData := base64ToUint8Array base64Audio in
      let s := with_svc (set_nextStartTime
                           (Math_max (nextStartTime (svc s)) currentTime)) s in
      match decodeAudioData audioData with
      | Some buffer =>
          let s := emit (SourceStart ctx (nextStartTime (svc s)) buffer) s in
          with_svc (set_nextStartTime
                      (nextStartTime (svc s) + Codec.duration buffer)%Q) s
      | None => emit (ConsoleError "Error decoding audio") s
      end
  | _, _ => s
  end.

(** The tool-call half of [handleMessage]; [now] is [Date.now()]. *)
Definition handleToolCall (now : Z) (m : LiveServerMessage) (s : Sys) : Sys :=
  match toolCall m with
  | Some functionCalls =>
      let '(s, responses) := fold_left (toolCallStep now) functionCalls (s, []) in
      match responses, currentSession (svc s) with
      | _ :: _, Some session => emit (SendToolResponse session responses) s
      | _, _ => s
      end
  | None => s
  end.

(** [handleMessage]: the audio half, then the tool-call half.  A call runs to
    its end before the next message is handled. *)
Definition handleMessage (currentTime : Q) (now : Z) (m : LiveServerMessage)
    (s : Sys) : Sys :=
  handleToolCall now m (handleAudio currentTime m s).

Definition release_processor (s : Sys) : Sys :=
  match processor (svc s) with
  | Some p =>
      let s := emit (NodeDisconnect p) (with_world (map_nodes (released p)) s) in
      emit (HandlerCleared p) (with_world (map_handlers (released p)) s)
  | None => s
  end.

Definition release_source (s : Sys) : Sys :=
  match source (svc s) with
  | Some n => emit (NodeDisconnect n) (with_world (map_nodes (released n)) s)
  | None => s
  end.

Definition release_stream (s : Sys) : Sys :=
  match stream (svc s) with
  | Some st => emit (TrackStop st) (with_world (map_streams (released st)) s)
  | None => s
  end.

Definition release_context (field : Service -> option handle) (s : Sys) : Sys :=
  match field (svc s) with
  | Some c => emit (ContextClose c) (with_world (map_contexts (released c)) s)
  | None => s
  end.

Definition clear_fields (v : Service) : Service :=
  set_currentSession None (set_contexts None None (set_stream None (set_nodes None None v))).

Definition stop (s : Sys) : Sys :=
  let s := release_processor s in
  let s := release_source s in
  let s := release_stream s in
  let s := release_context inputAudioContext s in
  let s := release_context outputAudioContext s in
  let s := with_svc clear_fields s in
  notify onStatusChange (StatusChange "Disconnected") s.

(** The channel's on-close callback; [ch] is the channel that closed. *)
Definition onclose (ch : handle) (s : Sys) : Sys :=
  let s := with_world (map_channels (released ch)) s in
  let s := notify onStatusChange (StatusChange "Disconnected") s in
  stop s.

(** The channel's on-error callback. *)
Definition onerror (s : Sys) : Sys :=
  let s := emit (ConsoleError "Live API Error:") s in
  notify onStatusChange (StatusChange "Connection Error") s.

(** The buffer an inbound message yields when it carries audio that decodes. *)
Definition decoded (m : LiveServerMessage) : option Codec.AudioBuffer :=
  match inlineData m with
  | Some base64Audio =>
      if String.eqb base64Audio "" then None
      else decodeAudioData (base64ToUint8Array base64Audio)
  | None => None
  end.

(** A message carries audio whose decoding throws. *)
Definition decodeFails (m : LiveServerMessage) : Prop :=
  exists base64Audio,
    inlineData m = Some base64Audio /\ base64Audio <> ""
    /\ decodeAudioData (base64ToUint8Array base64Audio) = None.

(** Inbound messages handled one after the other, in arrival order, each call
    running to its end before the next begins; each comes with the output
    clock and the wall clock read while it is handled.  The handler suspends
    only where it decodes inline audio ([awaitsDecode] below), so this is how
    messages are handled whenever the decoding of one settles before the next
    message arrives. *)
Definition handleAll (ms : list (Q * Z * LiveServerMessage)) (s : Sys) : Sys :=
  fold_left (fun s x => handleMessage x.1.1 x.1.2 x.2 s) ms s.

(** What can happen to a service, one event at a time. *)
Inductive Action :=
| Connect (micGranted channelOpens : bool) (userLocation : option GeoLocation)
| Message (currentTime : Q) (now : Z) (m : LiveServerMessage)
| Frame (inputData : list Q)
| ChannelClosed (ch : handle)
| ChannelError
| Stop.

Definition step (a : Action) (s : Sys) : Sys :=
  match a with
  | Connect micGranted channelOpens userLocation =>
      (connect micGranted channelOpens userLocation s).2
  | Message currentTime now m => handleMessage currentTime now m s
  | Frame inputData => onaudioprocess inputData s
  | ChannelClosed ch => onclose ch s
  | ChannelError => onerror s
  | Stop => stop s
  end.

Definition run (actions : list Action) (s : Sys) : Sys :=
  fold_left (fun s a => step a s) actions s.

End Service.

(** ** 5. The report handler of the UI *)

Inductive ReportStatus := pending | dispatched | resolved.

Module Report.
Record t := {
  id : string;
  timestamp : Z;
  location : GeoLocation;
  reporterName : option string;
  emergencyType : string;
  description : string;
  peopleCount : option JsNumber;
  criticalNeeds : option string;
  status : ReportStatus
}.
End Report.

(** The part of the component state the handler reads and writes. *)
Record AppState := {
  userLocationRef : option GeoLocation;
  reports : list Report.t;
  toastMessage : option string
}.

Definition isNaN (n : JsNumber) : bool :=
  match n with NaN => true | _ => false end.

(** [n !== 0] on numbers. *)
Definition nonzero (n : JsNumber) : bool :=
  match n with
  | Num q => negb (Qeq_bool q 0)
  | _ => true
  end.

(** Truthiness of an optional string field. *)
Definition truthy (o : option string) : bool :=
  match o with
  | Some s => negb (String.eqb s "")
  | None => false
  end.

Definition defaultCenter : GeoLocation :=
  {| lat := Num (340522 # 10000); lng := Num (-1182437 # 10000) |}.

Section ReportHandler.

(** The language's conversion of a string to a number. *)
Variable StringToNumber : string -> JsNumber.

(** [Number(v)]. *)
Definition Number (v : JsValue) : JsNumber :=
  match v with
  | VUndefined => NaN
  | VNull => Num 0
  | VBool b => Num (if b then 1 else 0)
  | VNumber n => n
  | VString s => StringToNumber s
  end.

Definition hasProvidedCoords (data : Draft.t) : bool :=
  let providedLat := Number (Draft.latitude data) in
  let providedLng := Number (Draft.longitude data) in
  negb (isNaN providedLat) && negb (isNaN providedLng)
  && (nonzero providedLat || nonzero providedLng).

(** The location chosen by the handler and whether it is the device's. *)
Definition resolveLocation (data : Draft.t) (ref : option GeoLocation)
    : GeoLocation * bool :=
  let reportLocation_isDevice :=
    if hasProvidedCoords data
    then (Some {| lat := Number (Draft.latitude data);
                  lng := Number (Draft.longitude data) |}, false)
    else match ref with
         | Some l => (Some l, true)
         | None => (None, false)
         end in
  match fst reportLocation_isDevice with
  | Some l => (l, snd reportLocation_isDevice)
  | None => (defaultCenter, snd reportLocation_isDevice)
  end.

Definition locationPrefix (data : Draft.t) (isDeviceLocation : bool) : string :=
  if hasProvidedCoords data && truthy (Draft.locationName data)
  then "[" +:+ default "" (Draft.locationName data) +:+ "] "
  else if isDeviceLocation then "[Device GPS] " else "".

(** The function the UI stores in [service.onReportSubmitted]; [now] is
    [Date.now()]. *)
Definition onReportSubmittedHandler (now : Z) (data : Draft.t) (a : AppState)
    : AppState :=
  let '(reportLocation, isDeviceLocation) := resolveLocation data (userLocationRef a) in
  let newReport := {|
    Report.id := pretty now;
    Report.timestamp := now;
    Report.location := reportLocation;
    Report.reporterName := None;
    Report.emergencyType := Draft.emergencyType data;
    Report.description := locationPrefix data isDeviceLocation +:+ Draft.description data;
    Report.peopleCount := Draft.peopleCount data;
    Report.criticalNeeds := Draft.criticalNeeds data;
    Report.status := pending |} in
  {| userLocationRef := userLocationRef a;
     reports := newReport :: reports a;
     toastMessage := Some "Report Submitted Successfully" |}.

End ReportHandler.

(** ** 6. Reading the event log *)

(** The events a call appended, given the state before and after it. *)
Definition emitted (before after : Sys) : list Event :=
  drop (length (log before)) (log after).

(** The arguments [onReportSubmitted] was invoked with, in order. *)
Definition reportsIn (l : list Event) : list Draft.t :=
  omap (fun e => match e with ReportSubmitted a => Some a | _ => None end) l.

(** The [sendToolResponse] calls, in order: session and responses carried. *)
Definition toolResponsesIn (l : list Event) : list (handle * list FunctionResponse) :=
  omap (fun e => match e with SendToolResponse c rs => Some (c, rs) | _ => None end) l.

(** The [sendRealtimeInput] calls, in order. *)
Definition realtimeInputsIn (l : list Event) : list (handle * string) :=
  omap (fun e => match e with SendRealtimeInput c _ d => Some (c, d) | _ => None end) l.

(** The audio levels notified, in order. *)
Definition audioLevelsIn (l : list Event) : list JsNumber :=
  omap (fun e => match e with AudioLevel x => Some x | _ => None end) l.

(** The playback starts scheduled, in order: start time and buffer. *)
Definition startsIn (l : list Event) : list (Q * Codec.AudioBuffer) :=
  omap (fun e => match e with SourceStart _ t b => Some (t, b) | _ => None end) l.

(** The release operations performed, in order. *)
Definition releasesIn (l : list Event) : list Event :=
  List.filter (fun e => match e with
                        | NodeDisconnect _ | HandlerCleared _
                        | TrackStop _ | ContextClose _ => true
                        | _ => false
                        end) l.

Definition isReportEmergency (fc : FunctionCall) : bool :=
  String.eqb (fc_name fc) "reportEmergency".

(** The requests of a message that name the report tool. *)
Definition reportCalls (m : LiveServerMessage) : list FunctionCall :=
  match toolCall m with
  | Some functionCalls => List.filter isReportEmergency functionCalls
  | None => []
  end.

(** A service that was connected and then stopped: the channel reference is
    gone while the listeners are still installed. *)
Definition detached : Sys :=
  stop (connect true true None (initial true true true)).2.

Definition fireDraft : Draft.t := {|
  Draft.emergencyType := "Fire";
  Draft.description := "Apartment fire";
  Draft.peopleCount := Some (Num 3);
  Draft.criticalNeeds := Some "Fire truck";
  Draft.locationName := None;
  Draft.latitude := VNumber (Num (3405 # 100));
  Draft.longitude := VNumber (Num (-11824 # 100))
|}.

Definition fireCall : FunctionCall :=
  {| fc_id := "call-1"; fc_name := "reportEmergency"; fc_args := fireDraft |}.

Definition fireMessage : LiveServerMessage :=
  {| inlineData := None; toolCall := Some [fireCall] |}.

(** Every buffer scheduled so far ends at or before the playhead. *)
Definition playheadCovers (s : Sys) : Prop :=
  Forall (fun x => (x.1 + Codec.duration x.2 <= nextStartTime (svc s))%Q)
    (startsIn (log s)).

(** A service that is connected (channel open, promise resolved). *)
Definition live : Sys := (connect true true None (initial true true true)).2.

(** Four bytes of transport text: two mono samples. *)
Definition audioMessage : LiveServerMessage :=
  {| inlineData := Some "abcd"; toolCall := None |}.

(** Three bytes of transport text: a truncated sample frame. *)
Definition truncatedMessage : LiveServerMessage :=
  {| inlineData := Some "abc"; toolCall := None |}.

(** The handles a field refers to. *)
Definition handles (field : option handle) : gset handle :=
  match field with
  | Some h => {[h]}
  | None => ∅
  end.

(** No device resource and no channel is open. *)
Definition holdsNothing (w : World) : Prop :=
  open_contexts w = ∅ /\ live_streams w = ∅ /\ wired_nodes w = ∅
  /\ capture_handlers w = ∅ /\ open_channels w = ∅.

(** [connect] called again on a connected service, with no teardown between. *)
Definition connectedTwice : Sys := (connect true true None live).2.

(** [connect] on a fresh service when the microphone is refused. *)
Definition micDenied : Sys := (connect false true None (initial true true true)).2.

(** A coordinate that is a number equal to 0. *)
Definition numericallyZero (n : JsNumber) : Prop :=
  exists q, n = Num q /\ (q == 0)%Q.

(** A coercion of strings for the examples: it knows two literals. *)
Definition digitsOnly (s : string) : JsNumber :=
  if String.eqb s "" then Num 0
  else if String.eqb s "7" then Num 7 else NaN.

(** ** 7. Sequences of events and further readings of the log *)

Section Sequences.

Context {utils : AudioUtils}.

(** Capture frames handled one after the other, in the order they fire. *)
Definition captureAll (frames : list (list Q)) (s : Sys) : Sys :=
  fold_left (fun s inputData => onaudioprocess inputData s) frames s.

End Sequences.

(** The texts [onStatusChange] was invoked with, in order. *)
Definition statusesIn (l : list Event) : list string :=
  omap (fun e => match e with StatusChange t => Some t | _ => None end) l.

(** The texts written with [console.error], in order. *)
Definition consoleErrorsIn (l : list Event) : list string :=
  omap (fun e => match e with ConsoleError t => Some t | _ => None end) l.

(** The handler of a message suspends: the message carries inline audio that
    is not empty while there is an output context, so [handleMessage] reaches
    its [await].  Otherwise the call runs to its end at once. *)
Definition awaitsDecode (s : Sys) (m : LiveServerMessage) : Prop :=
  exists base64Audio ctx,
    inlineData m = Some base64Audio /\ base64Audio <> ""
    /\ outputAudioContext (svc s) = Some ctx.

(** An action that is not an inbound message. *)
Definition notMessage (a : Action) : Prop :=
  match a with
  | Message _ _ _ => False
  | _ => True
  end.

(** The response [handleMessage] builds for a request, as the code writes it. *)
Definition acknowledgement (now : Z) (fc : FunctionCall) : FunctionResponse :=
  {| fr_id := fc_id fc;
     fr_name := fc_name fc;
     fr_result := {| status := "success"; ticketId := pretty now |} |}.

(** ** 8. The component that owns the service *)

(** A level as the level listener receives it: the square root of the mean
    square that the [AudioLevel] event carries.  The root is kept symbolic,
    it is not a rational in general. *)
Inductive Level :=
| RootOf (meanSquare : JsNumber).

(** The state of the [App] component the connection logic reads and writes.
    [geminiRef] holds the service object the ref points to; [audioLevel]
    keeps the value the level listener was given ([useState(0)] at first). *)
Record App := {
  isConnected : bool;
  statusText : string;
  audioLevel : Level;
  userLocation : option GeoLocation;
  showReports : bool;
  ui : AppState;
  geminiRef : option Service
}.

(** The component together with the resources outside and everything the
    services have done so far. *)
Record AppSys := {
  component : App;
  env : World;
  wire : list Event
}.

Definition initialApp : App := {|
  isConnected := false;
  statusText := "Ready";
  audioLevel := RootOf (Num 0);
  userLocation := None;
  showReports := true;
  ui := {| userLocationRef := None; reports := []; toastMessage := None |};
  geminiRef := None
|}.

Definition initialAppSys : AppSys :=
  {| component := initialApp; env := emptyWorld; wire := [] |}.

Definition set_isConnected (b : bool) (a : App) : App :=
  {| isConnected := b; statusText := statusText a; audioLevel := audioLevel a;
     userLocation := userLocation a; showReports := showReports a;
     ui := ui a; geminiRef := geminiRef a |}.

Definition set_statusText (t : string) (a : App) : App :=
  {| isConnected := isConnected a; statusText := t; audioLevel := audioLevel a;
     userLocation := userLocation a; showReports := showReports a;
     ui := ui a; geminiRef := geminiRef a |}.

Definition set_audioLevel (x : Level) (a : App) : App :=
  {| isConnected := isConnected a; statusText := statusText a; audioLevel := x;
     userLocation := userLocation a; showReports := showReports a;
     ui := ui a; geminiRef := geminiRef a |}.

Definition set_ui (u : AppState) (a : App) : App :=
  {| isConnected := isConnected a; statusText := statusText a;
     audioLevel := audioLevel a; userLocation := userLocation a;
     showReports := showReports a; ui := u; geminiRef := geminiRef a |}.

Definition set_geminiRef (v : option Service) (a : App) : App :=
  {| isConnected := isConnected a; statusText := statusText a;
     audioLevel := audioLevel a; userLocation := userLocation a;
     showReports := showReports a; ui := ui a; geminiRef := v |}.

(** The callback given to [watchPosition]: state and ref both take the new
    position. *)
Definition onPosition (loc : GeoLocation) (a : App) : App :=
  {| isConnected := isConnected a; statusText := statusText a;
     audioLevel := audioLevel a; userLocation := Some loc;
     showReports := showReports a;
     ui := {| userLocationRef := Some loc; reports := reports (ui a);
              toastMessage := toastMessage (ui a) |};
     geminiRef := geminiRef a |}.

Section Component.

Context {utils : AudioUtils}.

Variable StringToNumber : string -> JsNumber.

(** Drafts handed to the report handler one after the other, each with the
    clock read for it. *)
Definition submitAll (drafts : list (Z * Draft.t)) (a : AppState) : AppState :=
  fold_left (fun a x => onReportSubmittedHandler StringToNumber x.1 x.2 a) drafts a.

(** What a service event does to the component through the three listeners
    [toggleConnection] installs: [setStatus], [setAudioLevel] and the report
    handler.  The other events do not reach the component. *)
Definition deliver (now : Z) (a : App) (e : Event) : App :=
  match e with
  | StatusChange t => set_statusText t a
  | AudioLevel x => set_audioLevel (RootOf x) a
  | ReportSubmitted data =>
      set_ui (onReportSubmittedHandler StringToNumber now data (ui a)) a
  | _ => a
  end.

(** An operation of the service the ref points to, with its listener calls
    delivered to the component. *)
Definition onService (op : Sys -> Sys) (now : Z) (x : AppSys) : AppSys :=
  match geminiRef (component x) with
  | Some v =>
      let s := op {| svc := v; world := env x; log := [] |} in
      {| component := fold_left (deliver now) (log s)
                  (set_geminiRef (Some (svc s)) (component x));
         env := world s;
         wire := wire x ++ log s |}
  | None => x
  end.

(** [toggleConnection]; [micGranted] and [channelOpens] are what the
    environment answers if a connection is attempted. *)
Definition toggleConnection (micGranted channelOpens : bool) (now : Z)
    (x : AppSys) : AppSys :=
  if isConnected (component x) then
    let x := onService stop now x in
    {| component := set_statusText "Ready" (set_isConnected false (component x));
       env := env x; wire := wire x |}
  else
    let service := newService true true true in
    let r := connect micGranted channelOpens (userLocationRef (ui (component x)))
               {| svc := service; world := env x; log := [] |} in
    let a := fold_left (deliver now) (log r.2)
               (set_geminiRef (Some (svc r.2)) (component x)) in
    {| component := match r.1 with
              | None => set_isConnected true a
              | Some _ => set_isConnected false (set_statusText "Connection Failed" a)
              end;
       env := world r.2;
       wire := wire x ++ log r.2 |}.

(** The callbacks of the channel, as they reach the component. *)
Definition appMessage (currentTime : Q) (now : Z) (m : LiveServerMessage)
    (x : AppSys) : AppSys :=
  onService (handleMessage currentTime now m) now x.

Definition appClose (ch : handle) (now : Z) (x : AppSys) : AppSys :=
  onService (onclose ch) now x.

Definition appFrame (inputData : list Q) (now : Z) (x : AppSys) : AppSys :=
  onService (onaudioprocess inputData) now x.

End Component.

(** ** 9. The map *)

Inductive MapCommand :=
| FlyTo (target : GeoLocation) (zoom : Z)
| SetView (center : GeoLocation) (zoom : Z).

(** The effect of [MapUpdater]. *)
Definition mapUpdater (center : option GeoLocation) (rs : list Report.t)
    : option MapCommand :=
  match rs with
  | latest :: _ => Some (FlyTo (Report.location latest) 15)
  | [] => match center with
          | Some c => Some (SetView c 13)
          | None => None
          end
  end.

(** The initial centre of the map container. *)
Definition mapCenter (userLocation : option GeoLocation) : GeoLocation :=
  match userLocation with
  | Some l => l
  | None => {| lat := Num (340522 # 10000); lng := Num (-1182437 # 10000) |}
  end.

Inductive MarkerKind :=
| UserMarker
| EmergencyMarker (key : string).

(** The markers [Map] renders: the user's, then one per report. *)
Definition markers (userLocation : option GeoLocation) (rs : list Report.t)
    : list (GeoLocation * MarkerKind) :=
  match userLocation with
  | Some l => [(l, UserMarker)]
  | None => []
  end ++ map (fun r => (Report.location r, EmergencyMarker (Report.id r))) rs.

(** [report.criticalNeeds || 'None specified']. *)
Definition needsLabel (criticalNeeds : option string) : string :=
  match criticalNeeds with
  | Some t => if String.eqb t "" then "None specified" else t
  | None => "None specified"
  end.

(** [report.peopleCount || 'Unknown']. *)
Definition peopleLabel (peopleCount : option JsNumber) : JsValue :=
  match peopleCount with
  | Some n => if negb (isNaN n) && nonzero n then VNumber n else VString "Unknown"
  | None => VString "Unknown"
  end.

(** ** 10. The level visualiser *)

(** One step of the smoothing in [draw]:
    [currentLevel += (level - currentLevel) * 0.2]. *)
Definition approach (level currentLevel : Q) : Q :=
  (currentLevel + (level - currentLevel) * (2 # 10))%Q.

(** The smoothed level after a number of animation frames; each run of the
    effect starts from 0. *)
Fixpoint levelAfter (frames : nat) (level : Q) : Q :=
  match frames with
  | O => 0%Q
  | S k => approach level (levelAfter k level)
  end.

Definition Qmin_js (a b : Q) : Q := if Qle_bool a b then a else b.

(** What one frame draws: radius and opacity of the filled circle, radius and
    opacity of the ripple. *)
Record Drawing := {
  baseRadius : Q;
  fillAlpha : Q;
  rippleRadius : Q;
  strokeAlpha : Q
}.

Definition drawing (width height currentLevel : Q) : Drawing :=
  let centerX := (width / 2)%Q in
  let centerY := (height / 2)%Q in
  let maxRadius := (Qmin_js centerX centerY * (8 # 10))%Q in
  {| baseRadius := (30 + currentLevel * 50)%Q;
     fillAlpha := ((2 # 10) + currentLevel * (5 # 10))%Q;
     rippleRadius := (30 + currentLevel * maxRadius)%Q;
     strokeAlpha := ((5 # 10) - currentLevel * (3 # 10))%Q |}.

(** One call of [draw]: nothing but a cleared canvas when inactive, otherwise
    the new smoothed level and what is drawn with it. *)
Definition draw (isActive : bool) (width height level currentLevel : Q)
    : option (Q * Drawing) :=
  if isActive
  then let currentLevel := approach level currentLevel in
       Some (currentLevel, drawing width height currentLevel)
  else None.

(** * Properties *)

(** ** PCM codec *)

Lemma Z_of_byte_of_Z (z : Z) :
  0 <= z < 256 -> Codec.Z_of_byte (Codec.byte_of_Z z) = z.
Proof.
  intros Hz. unfold Codec.Z_of_byte, Codec.byte_of_Z.
  rewrite Z.mod_small by lia.
  destruct (Byte.of_N (Z.to_N z)) as [b|] eqn:E.
  - apply Byte.to_of_N in E. rewrite E. lia.
  - apply Byte.of_N_None_iff in E. lia.
Qed.

Lemma int16_le_roundtrip (k : Z) :
  -32768 <= k <= 32767 ->
  exists lo hi, Codec.int16_le k = [lo; hi] /\ Codec.int16_of_le lo hi = k.
Proof.
  intros Hk. unfold Codec.int16_le. do 2 eexists. split; [reflexivity|].
  unfold Codec.int16_of_le.
  assert (Hu : 0 <= k mod 65536 < 65536) by (apply Z.mod_pos_bound; lia).
  rewrite !Z_of_byte_of_Z.
  - replace (k mod 65536 mod 256 + 256 * (k mod 65536 / 256))
      with (k mod 65536)
      by (pose proof (Z.div_mod (k mod 65536) 256); lia).
    destruct (Z.ltb_spec (k mod 65536) 32768) as [Hlt|Hge].
    + destruct (Z.le_gt_cases 0 k) as [Hp|Hn].
      * apply Z.mod_small; lia.
      * assert (E : k mod 65536 = k + 65536)
          by (symmetry; apply (Z.mod_unique_pos k 65536 (-1)); lia).
        lia.
    + destruct (Z.le_gt_cases 0 k) as [Hp|Hn].
      * rewrite Z.mod_small in Hge; lia.
      * assert (E : k mod 65536 = k + 65536)
          by (symmetry; apply (Z.mod_unique_pos k 65536 (-1)); lia).
        lia.
  - split; [apply Z.div_pos; lia | apply Z.div_lt_upper_bound; lia].
  - apply Z.mod_pos_bound; lia.
Qed.

Lemma clamp16_range (z : Z) : -32768 <= Codec.clamp16 z <= 32767.
Proof. unfold Codec.clamp16. lia. Qed.

Lemma decode_samples_encode (l : list Q) :
  Codec.decode_samples (Codec.encode l)
  = map (fun s => Codec.dequantize (Codec.quantize s)) l.
Proof.
  induction l as [|s l IH]; [reflexivity|].
  cbn [Codec.encode flat_map map].
  destruct (int16_le_roundtrip (Codec.quantize s) (clamp16_range _))
    as (lo & hi & -> & E).
  cbn [app Codec.decode_samples]. rewrite E. f_equal. exact IH.
Qed.

Lemma length_encode (l : list Q) :
  length (Codec.encode l) = (2 * length l)%nat.
Proof.
  induction l as [|s l IH]; [reflexivity|].
  cbn [Codec.encode flat_map]. rewrite length_app. fold (Codec.encode l).
  rewrite IH. cbn. lia.
Qed.

(** Truncation toward zero leaves less than one unit. *)
Lemma truncate_error (n : Z) (d : positive) :
  Z.abs (n - Z.pos d * Z.quot n (Z.pos d)) < Z.pos d.
Proof.
  pose proof (Z.quot_rem' n (Z.pos d)) as E.
  pose proof (Z.rem_bound_abs n (Z.pos d) ltac:(lia)) as B.
  replace (n - Z.pos d * (n ÷ Z.pos d)) with (Z.rem n (Z.pos d)) by lia.
  lia.
Qed.

Lemma quantize_in_range (s : Q) :
  (-1 <= s <= 1)%Q -> Codec.quantize s = Codec.truncate (s * 32767).
Proof.
  intros [Hlo Hhi]. unfold Codec.quantize, Codec.clamp16, Codec.truncate.
  destruct s as [n d]. unfold Qle in Hlo, Hhi. cbn in *.
  rewrite Pos.mul_1_r.
  assert (Hq : -32767 <= (n * 32767) ÷ Z.pos d <= 32767).
  { split.
    - apply Z.quot_le_lower_bound; lia.
    - apply Z.quot_le_upper_bound; lia. }
  lia.
Qed.

Lemma quantize_error (s : Q) :
  (-1 <= s <= 1)%Q ->
  (Qabs (Codec.dequantize (Codec.quantize s) - s) < 1 # 32767)%Q.
Proof.
  intros Hs. rewrite (quantize_in_range s Hs).
  apply Qabs_Qlt_condition.
  unfold Codec.dequantize, Codec.truncate.
  destruct s as [n d]. cbn [Qmult Qnum Qden]. rewrite Pos.mul_1_r.
  pose proof (truncate_error (n * 32767) d) as T.
  unfold Qlt, Qminus, Qplus, Qopp. cbn [Qnum Qden].
  split; nia.
Qed.

Example encode_half : Codec.encode [1 # 2; -1]%Q = ["255"; "063"; "001"; "128"]%byte.
Proof. reflexivity. Qed.

Example decode_odd_length : Codec.decode ["255"; "063"; "001"]%byte 24000 1 = None.
Proof. reflexivity. Qed.

(** C9. Decoding the 16-bit little-endian bytes the encoder produces for
    samples in [-1,1] succeeds, yields as many samples as were encoded, and
    each of them lies within one quantisation step, 1/32767, of the original
    (whatever the declared rate, for every channel count that divides the
    number of samples). *)
Theorem codec_roundtrip (l : list Q) (rate channels : positive) :
  Forall (fun s => (-1 <= s <= 1)%Q) l ->
  (Z.pos channels | Z.of_nat (length l)) ->
  exists b,
    Codec.decode (Codec.encode l) rate channels = Some b
    /\ length (Codec.samples b) = length l
    /\ forall i s, l !! i = Some s ->
         exists s', Codec.samples b !! i = Some s'
                    /\ (Qabs (s' - s) <= 1 # 32767)%Q.
Proof.
  intros Hrange [k Hk]. unfold Codec.decode.
  rewrite length_encode.
  replace (Z.of_nat (2 * length l)) with (2 * k * Z.pos channels) by lia.
  replace (2 * k * Z.pos channels) with (k * (2 * Z.pos channels)) by lia.
  rewrite Z.mod_mul by lia. cbn [Z.eqb].
  eexists. split; [reflexivity|]. cbn [Codec.samples].
  rewrite decode_samples_encode. split; [apply length_map|].
  intros i s Hi. rewrite list_lookup_fmap, Hi. cbn.
  eexists. split; [reflexivity|].
  apply Qlt_le_weak, quantize_error.
  rewrite Forall_forall in Hrange. apply Hrange.
  eapply list_elem_of_lookup_2. exact Hi.
Qed.

Lemma codec_roundtrip_witness :
  exists b,
    Codec.decode (Codec.encode [1 # 2; -1; 1; 0; -(1 # 3); 7 # 10]%Q) 24000 2 = Some b
    /\ length (Codec.samples b) = 6%nat
    /\ forall i s, [1 # 2; -1; 1; 0; -(1 # 3); 7 # 10]%Q !! i = Some s ->
         exists s', Codec.samples b !! i = Some s'
                    /\ (Qabs (s' - s) <= 1 # 32767)%Q.
Proof.
  apply (codec_roundtrip [1 # 2; -1; 1; 0; -(1 # 3); 7 # 10]%Q 24000 2).
  - repeat constructor; unfold Qle; simpl; lia.
  - exists 3. reflexivity.
Defined.

(** ** Location resolution in the UI handler *)

Lemma nonzero_false (n : JsNumber) : nonzero n = false <-> numericallyZero n.
Proof.
  unfold numericallyZero. destruct n as [|b|q]; cbn.
  - split; [discriminate | intros (q & E & _); discriminate].
  - split; [discriminate | intros (q & E & _); discriminate].
  - rewrite negb_false_iff, Qeq_bool_iff. split.
    + intros Hq. exists q. split; [reflexivity | exact Hq].
    + intros (q' & E & Hq). injection E as ->. exact Hq.
Qed.

Lemma isNaN_true (n : JsNumber) : isNaN n = true <-> n = NaN.
Proof. destruct n; cbn; split; congruence. Qed.

Lemma hasProvidedCoords_false StringToNumber (data : Draft.t) :
  hasProvidedCoords StringToNumber data = false <->
  (Number StringToNumber (Draft.latitude data) = NaN
   \/ Number StringToNumber (Draft.longitude data) = NaN
   \/ (numericallyZero (Number StringToNumber (Draft.latitude data))
       /\ numericallyZero (Number StringToNumber (Draft.longitude data)))).
Proof.
  unfold hasProvidedCoords. cbv zeta.
  rewrite <- !isNaN_true, <- !nonzero_false.
  destruct (isNaN _), (isNaN _), (nonzero _), (nonzero _); cbn;
    intuition congruence.
Qed.

(** C10. The report the handler prepends is located as follows.  When the
    draft's latitude and longitude are both numerically 0, or either of them
    is not a number, the location is the device's most recent location if
    one is known and the fixed default (34.0522, -118.2437) otherwise.  When
    both are numbers and at least one is not 0, the location is exactly the
    pair of provided numbers. *)
Theorem report_location_resolution StringToNumber (now : Z) (data : Draft.t)
    (a : AppState) :
  let providedLat := Number StringToNumber (Draft.latitude data) in
  let providedLng := Number StringToNumber (Draft.longitude data) in
  exists r,
    reports (onReportSubmittedHandler StringToNumber now data a) = r :: reports a
    /\ ((providedLat = NaN \/ providedLng = NaN
         \/ (numericallyZero providedLat /\ numericallyZero providedLng)) ->
        Report.location r = match userLocationRef a with
                            | Some device => device
                            | None => {| lat := Num (340522 # 10000);
                                         lng := Num (-1182437 # 10000) |}
                            end)
    /\ (providedLat <> NaN -> providedLng <> NaN ->
        ~ (numericallyZero providedLat /\ numericallyZero providedLng) ->
        Report.location r = {| lat := providedLat; lng := providedLng |}).
Proof.
  intros providedLat providedLng.
  unfold onReportSubmittedHandler.
  destruct (resolveLocation StringToNumber data (userLocationRef a))
    as [loc dev] eqn:E.
  eexists. split; [reflexivity|]. cbn [Report.location].
  unfold resolveLocation, defaultCenter in E.
  split.
  - intros Hno. apply hasProvidedCoords_false in Hno. rewrite Hno in E.
    destruct (userLocationRef a); cbn in E; congruence.
  - intros Hlat Hlng Hnz.
    destruct (hasProvidedCoords StringToNumber data) eqn:Hp.
    + cbn in E. subst providedLat providedLng. congruence.
    + apply hasProvidedCoords_false in Hp. tauto.
Qed.

Example location_from_agent :
  Report.location
    <$> head (reports (onReportSubmittedHandler digitsOnly 1700000000000
          {| Draft.emergencyType := "Fire"; Draft.description := "Apartment fire";
             Draft.peopleCount := Some (Num 3); Draft.criticalNeeds := Some "Fire truck";
             Draft.locationName := None;
             Draft.latitude := VNumber (Num (3405 # 100));
             Draft.longitude := VNumber (Num (-11824 # 100)) |}
          {| userLocationRef := Some {| lat := Num 1; lng := Num 2 |};
             reports := []; toastMessage := None |}))
  = Some {| lat := Num (3405 # 100); lng := Num (-11824 # 100) |}.
Proof. reflexivity. Qed.

Example location_zero_zero_uses_device :
  Report.location
    <$> head (reports (onReportSubmittedHandler digitsOnly 1700000000000
          {| Draft.emergencyType := "Flood"; Draft.description := "Water rising";
             Draft.peopleCount := None; Draft.criticalNeeds := None;
             Draft.locationName := Some "Current Location";
             Draft.latitude := VNumber (Num 0);
             Draft.longitude := VNull |}
          {| userLocationRef := Some {| lat := Num 1; lng := Num 2 |};
             reports := []; toastMessage := None |}))
  = Some {| lat := Num 1; lng := Num 2 |}.
Proof. reflexivity. Qed.

Example location_missing_uses_default :
  Report.location
    <$> head (reports (onReportSubmittedHandler digitsOnly 1700000000000
          {| Draft.emergencyType := "Flood"; Draft.description := "Water rising";
             Draft.peopleCount := None; Draft.criticalNeeds := None;
             Draft.locationName := None;
             Draft.latitude := VUndefined;
             Draft.longitude := VString "7" |}
          {| userLocationRef := None; reports := []; toastMessage := None |}))
  = Some {| lat := Num (340522 # 10000); lng := Num (-1182437 # 10000) |}.
Proof. reflexivity. Qed.

(** ** Tool calls *)

Section ServiceFacts.

Context {utils : AudioUtils}.

Lemma emitted_app (s s' : Sys) (l : list Event) :
  log s' = log s ++ l -> emitted s s' = l.
Proof. intros E. unfold emitted. rewrite E. apply drop_app_length. Qed.

(** The audio half appends only playback and console events and leaves every
    field but the playhead as it was. *)
Lemma handleAudio_frame (currentTime : Q) (m : LiveServerMessage) (s : Sys) :
  exists l,
    log (handleAudio currentTime m s) = log s ++ l
    /\ reportsIn l = [] /\ toolResponsesIn l = []
    /\ releasesIn l = [] /\ realtimeInputsIn l = []
    /\ world (handleAudio currentTime m s) = world s
    /\ exists t, svc (handleAudio currentTime m s) = set_nextStartTime t (svc s).
Proof.
  assert (Hid : exists t, svc s = set_nextStartTime t (svc s))
    by (exists (nextStartTime (svc s)); destruct (svc s); reflexivity).
  unfold handleAudio.
  destruct (inlineData m) as [b64|], (outputAudioContext (svc s)) as [ctx|];
    try (exists []; rewrite app_nil_r; repeat split; done).
  destruct (String.eqb b64 "");
    [exists []; rewrite app_nil_r; repeat split; done|].
  destruct (decodeAudioData (base64ToUint8Array b64)) as [buffer|];
    cbn; eexists; (split; [reflexivity|]); repeat split; eexists; reflexivity.
Qed.

Lemma toolCallStep_fold (now : Z) (fcs : list FunctionCall) (s : Sys)
    (acc : list FunctionResponse) :
  fold_left (toolCallStep now) fcs (s, acc)
  = ({| svc := svc s; world := world s;
        log := log s ++ (if onReportSubmitted (svc s)
                         then map (fun fc => ReportSubmitted (fc_args fc))
                                (List.filter isReportEmergency fcs)
                         else []) |},
     acc ++ map (successResponse now) (List.filter isReportEmergency fcs)).
Proof.
  revert s acc. induction fcs as [|fc fcs IH]; intros s acc.
  - cbn. rewrite !app_nil_r. destruct (onReportSubmitted (svc s)), s;
      cbn; rewrite ?app_nil_r; reflexivity.
  - cbn [fold_left List.filter]. unfold toolCallStep at 2.
    change (String.eqb (fc_name fc) "reportEmergency") with (isReportEmergency fc).
    destruct (isReportEmergency fc); cbn [fst snd].
    + rewrite IH. unfold notify.
      destruct (onReportSubmitted (svc s)) eqn:L; cbn [emit svc world log];
        rewrite ?L; cbn [map]; rewrite <- ?app_assoc; reflexivity.
    + apply IH.
Qed.

Lemma handleToolCall_frame (now : Z) (m : LiveServerMessage) (s : Sys) :
  log (handleToolCall now m s)
  = log s
    ++ (if onReportSubmitted (svc s)
        then map (fun fc => ReportSubmitted (fc_args fc)) (reportCalls m)
        else [])
    ++ match currentSession (svc s), reportCalls m with
       | Some session, _ :: _ =>
           [SendToolResponse session (map (successResponse now) (reportCalls m))]
       | _, _ => []
       end
  /\ svc (handleToolCall now m s) = svc s
  /\ world (handleToolCall now m s) = world s.
Proof.
  unfold handleToolCall, reportCalls.
  destruct (toolCall m) as [fcs|].
  - rewrite toolCallStep_fold. cbn [app svc].
    destruct (List.filter isReportEmergency fcs) as [|fc rest] eqn:F.
    + cbn [map]. destruct (currentSession (svc s));
        cbn [log svc world]; rewrite ?app_nil_r; repeat split; reflexivity.
    + cbn [map].
      destruct (currentSession (svc s)) as [session|];
        cbn [emit log svc world]; rewrite ?app_nil_r, <- ?app_assoc;
        repeat split; reflexivity.
  - cbn. destruct (onReportSubmitted (svc s)), (currentSession (svc s));
      rewrite ?app_nil_r; repeat split; reflexivity.
Qed.

Lemma reportsIn_reports (fcs : list FunctionCall) :
  reportsIn (map (fun fc => ReportSubmitted (fc_args fc)) fcs) = map fc_args fcs.
Proof. induction fcs as [|fc fcs IH]; cbn; [reflexivity | f_equal; exact IH]. Qed.

Lemma toolResponsesIn_reports (fcs : list FunctionCall) :
  toolResponsesIn (map (fun fc => ReportSubmitted (fc_args fc)) fcs) = [].
Proof. induction fcs as [|fc fcs IH]; cbn; [reflexivity | exact IH]. Qed.

(** C1 (as the code has it). For every inbound message: if a listener is
    installed, [onReportSubmitted] is invoked exactly once per request named
    reportEmergency, in request order, with that request's argument object,
    and never for another request.  If the service holds a current session
    and the message has at least one such request, exactly one
    [sendToolResponse] call is made; it carries exactly one response per
    reportEmergency request, in order, with that request's id and name and
    the status "success".  If no current session is held, or no request
    names reportEmergency, nothing is sent. *)
Theorem tool_calls_acknowledged (currentTime : Q) (now : Z)
    (m : LiveServerMessage) (s : Sys) :
  let out := emitted s (handleMessage currentTime now m s) in
  reportsIn out
  = (if onReportSubmitted (svc s) then map fc_args (reportCalls m) else [])
  /\ toolResponsesIn out
     = match currentSession (svc s), reportCalls m with
       | Some session, _ :: _ =>
           [(session,
             map (fun fc => {| fr_id := fc_id fc;
                               fr_name := fc_name fc;
                               fr_result := {| status := "success";
                                               ticketId := pretty now |} |})
               (reportCalls m))]
       | _, _ => []
       end.
Proof.
  intros out. subst out. unfold handleMessage.
  destruct (handleAudio_frame currentTime m s)
    as (l & Hlog & Hr & Ht & _ & _ & _ & t & Hsvc).
  destruct (handleToolCall_frame now m (handleAudio currentTime m s))
    as (Hlog' & _ & _).
  rewrite Hlog, Hsvc in Hlog'. cbn [set_nextStartTime onReportSubmitted currentSession] in Hlog'.
  rewrite <- app_assoc in Hlog'.
  rewrite (emitted_app _ _ _ Hlog').
  unfold reportsIn, toolResponsesIn in *. rewrite !omap_app, Hr, Ht. cbn [app].
  split.
  - destruct (onReportSubmitted (svc s)).
    + fold (reportsIn (map (fun fc => ReportSubmitted (fc_args fc)) (reportCalls m))).
      rewrite reportsIn_reports.
      destruct (currentSession (svc s)), (reportCalls m); cbn; rewrite ?app_nil_r; reflexivity.
    + destruct (currentSession (svc s)), (reportCalls m); reflexivity.
  - destruct (onReportSubmitted (svc s)).
    + fold (toolResponsesIn (map (fun fc => ReportSubmitted (fc_args fc)) (reportCalls m))).
      rewrite toolResponsesIn_reports.
      destruct (currentSession (svc s)), (reportCalls m); reflexivity.
    + destruct (currentSession (svc s)), (reportCalls m); reflexivity.
Qed.

End ServiceFacts.

Example tool_call_on_live_session :
  toolResponsesIn (emitted live
    (handleMessage (utils := specAudioUtils) 0 1700000000000
       {| inlineData := None;
          toolCall := Some [{| fc_id := "call-0"; fc_name := "lookupWeather";
                               fc_args := fireDraft |};
                            fireCall] |} live))
  = [(3%nat, [{| fr_id := "call-1"; fr_name := "reportEmergency";
                 fr_result := {| status := "success";
                                 ticketId := "1700000000000" |} |}])].
Proof. reflexivity. Qed.

(** C1 as stated fails: with no current session the request named
    reportEmergency is handed to the listener but no response is sent. *)
Lemma tool_call_without_session_unanswered :
  reportCalls fireMessage = [fireCall]
  /\ currentSession (svc detached) = None
  /\ reportsIn (emitted detached
       (handleMessage (utils := specAudioUtils) 0 1700000000000 fireMessage detached))
     = [fireDraft]
  /\ toolResponsesIn (emitted detached
       (handleMessage (utils := specAudioUtils) 0 1700000000000 fireMessage detached))
     = [].
Proof. repeat split; reflexivity. Qed.

(** ** The playhead clock *)

Lemma Math_max_l (a b : Q) : (a <= Math_max a b)%Q.
Proof.
  unfold Math_max. destruct (Qle_bool b a) eqn:E; [apply Qle_refl|].
  destruct (Qlt_le_dec a b) as [H|H]; [apply Qlt_le_weak, H|].
  apply Qle_bool_iff in H. congruence.
Qed.

Lemma Math_max_r (a b : Q) : (b <= Math_max a b)%Q.
Proof.
  unfold Math_max. destruct (Qle_bool b a) eqn:E; [|apply Qle_refl].
  apply Qle_bool_iff, E.
Qed.


Lemma duration_nonneg (b : Codec.AudioBuffer) : (0 <= Codec.duration b)%Q.
Proof.
  unfold Codec.duration, Codec.frameCount, Qle. cbn.
  rewrite Z.mul_1_r. apply Z.div_pos; lia.
Qed.

Lemma advance_le (t : Q) (b : Codec.AudioBuffer) : (t <= t + Codec.duration b)%Q.
Proof.
  rewrite <- (Qplus_0_r t) at 1.
  apply Qplus_le_compat; [apply Qle_refl | apply duration_nonneg].
Qed.

Section PlayheadFacts.

Context {utils : AudioUtils}.

Lemma startsIn_tool_events (now : Z) (m : LiveServerMessage) (s : Sys) :
  exists l,
    log (handleToolCall now m s) = log s ++ l /\ startsIn l = []
    /\ releasesIn l = [] /\ realtimeInputsIn l = [].
Proof.
  destruct (handleToolCall_frame now m s) as (E & _ & _).
  eexists. split; [exact E|].
  assert (H : forall fcs,
             startsIn (map (fun fc => ReportSubmitted (fc_args fc)) fcs) = []
             /\ releasesIn (map (fun fc => ReportSubmitted (fc_args fc)) fcs) = []
             /\ realtimeInputsIn (map (fun fc => ReportSubmitted (fc_args fc)) fcs) = [])
    by (induction fcs; cbn; auto).
  destruct (H (reportCalls m)) as (H1 & H2 & H3).
  unfold startsIn, realtimeInputsIn, releasesIn in *.
  rewrite !omap_app, !List.filter_app.
  destruct (onReportSubmitted (svc s)); rewrite ?H1, ?H2, ?H3;
    destruct (currentSession (svc s)), (reportCalls m); cbn; auto.
Qed.

(** What one message does to the service: the log grows, only the playhead
    field changes, and it does not move back. *)
Lemma handleMessage_frame (currentTime : Q) (now : Z) (m : LiveServerMessage)
    (s : Sys) :
  exists l t,
    log (handleMessage currentTime now m s) = log s ++ l
    /\ svc (handleMessage currentTime now m s) = set_nextStartTime t (svc s)
    /\ world (handleMessage currentTime now m s) = world s
    /\ releasesIn l = [] /\ realtimeInputsIn l = []
    /\ (nextStartTime (svc s) <= t)%Q.
Proof.
  unfold handleMessage.
  destruct (startsIn_tool_events now m (handleAudio currentTime m s))
    as (l2 & E2 & _ & R2 & I2).
  destruct (handleToolCall_frame now m (handleAudio currentTime m s))
    as (_ & Hsvc & Hw).
  rewrite E2, Hsvc, Hw. clear E2 Hsvc Hw.
  unfold handleAudio.
  destruct (inlineData m) as [b64|], (outputAudioContext (svc s)) as [ctx|];
    try (exists l2, (nextStartTime (svc s)); repeat split;
         [destruct (svc s); reflexivity | assumption | assumption | apply Qle_refl]).
  destruct (String.eqb b64 "");
    [exists l2, (nextStartTime (svc s)); repeat split;
       [destruct (svc s); reflexivity | assumption | assumption | apply Qle_refl]|].
  destruct (decodeAudioData (base64ToUint8Array b64)) as [buffer|];
    cbn [emit with_svc svc world log set_nextStartTime nextStartTime].
  - eexists (_ :: l2), _. rewrite <- app_assoc. repeat split; try assumption.
    eapply Qle_trans; [apply Math_max_l | apply advance_le].
  - eexists (_ :: l2), _. rewrite <- app_assoc. repeat split; try assumption.
    apply Math_max_l.
Qed.

(** A message whose audio decodes schedules exactly one start, at the later of
    playhead and output clock, and advances the playhead by the duration. *)
Lemma handleMessage_decoded (currentTime : Q) (now : Z) (m : LiveServerMessage)
    (s : Sys) (ctx : handle) (buffer : Codec.AudioBuffer) :
  outputAudioContext (svc s) = Some ctx ->
  decoded m = Some buffer ->
  let start := Math_max (nextStartTime (svc s)) currentTime in
  startsIn (emitted s (handleMessage currentTime now m s)) = [(start, buffer)]
  /\ svc (handleMessage currentTime now m s)
     = set_nextStartTime (start + Codec.duration buffer)%Q (svc s).
Proof.
  intros Hctx Hdec start. subst start. unfold handleMessage.
  destruct (startsIn_tool_events now m (handleAudio currentTime m s))
    as (l2 & E2 & S2 & _).
  destruct (handleToolCall_frame now m (handleAudio currentTime m s))
    as (_ & Hsvc & _).
  rewrite Hsvc. clear Hsvc.
  assert (Ha : handleAudio currentTime m s
          = {| svc := set_nextStartTime
                        (Math_max (nextStartTime (svc s)) currentTime
                         + Codec.duration buffer)%Q (svc s);
               world := world s;
               log := log s ++ [SourceStart ctx
                                  (Math_max (nextStartTime (svc s)) currentTime)
                                  buffer] |}).
  { unfold handleAudio, decoded in *. rewrite Hctx.
    destruct (inlineData m) as [b64|]; [|discriminate].
    destruct (String.eqb b64 ""); [discriminate|].
    rewrite Hdec. reflexivity. }
  rewrite Ha in E2 |- *. cbn [log svc] in *. rewrite <- app_assoc in E2.
  rewrite (emitted_app _ _ _ E2). split; [|reflexivity].
  cbn. fold (startsIn l2). rewrite S2. reflexivity.
Qed.

Lemma handleAll_frame (ms : list (Q * Z * LiveServerMessage)) (s : Sys) :
  exists l t,
    log (handleAll ms s) = log s ++ l
    /\ svc (handleAll ms s) = set_nextStartTime t (svc s)
    /\ world (handleAll ms s) = world s
    /\ releasesIn l = [] /\ realtimeInputsIn l = []
    /\ (nextStartTime (svc s) <= t)%Q.
Proof.
  revert s. induction ms as [|[[ct now] m] ms IH]; intros s.
  - exists [], (nextStartTime (svc s)). cbn. rewrite app_nil_r.
    repeat split; [destruct (svc s); reflexivity | apply Qle_refl].
  - cbn [handleAll fold_left fst snd].
    destruct (handleMessage_frame ct now m s) as (l1 & t1 & L1 & S1 & W1 & R1 & I1 & T1).
    destruct (IH (handleMessage ct now m s)) as (l2 & t2 & L2 & S2 & W2 & R2 & I2 & T2).
    unfold handleAll in *.
    exists (l1 ++ l2), t2. rewrite L2, S2, W2, L1, S1, W1, <- app_assoc.
    rewrite S1 in T2. cbn [set_nextStartTime nextStartTime] in T2.
    unfold releasesIn, realtimeInputsIn in *.
    rewrite List.filter_app, omap_app, R1, R2, I1, I2.
    repeat split. eapply Qle_trans; eassumption.
Qed.

End PlayheadFacts.

Section PlayheadSequence.

Context {utils : AudioUtils}.





End PlayheadSequence.


Example three_chunks_schedule :
  map fst (startsIn (emitted live (handleAll (utils := specAudioUtils)
             [(0%Q, 0, audioMessage); ((1 # 10)%Q, 0, audioMessage);
              ((1 # 100)%Q, 0, audioMessage)] live)))
  = [0; 1 # 10; (1 # 10) + (2 # 24000)]%Q.
Proof. reflexivity. Qed.

(** ** Decode failures *)

Section DecodeFailure.

Context {utils : AudioUtils}.

Lemma decodeFails_not_decoded (m : LiveServerMessage) :
  decodeFails m -> decoded m = None.
Proof.
  intros (b64 & Hm & Hne & Hd). unfold decoded. rewrite Hm.
  destruct (String.eqb b64 ""); [reflexivity | exact Hd].
Qed.

(** A message that yields no buffer, or arrives when there is no output
    context, schedules nothing. *)
Lemma handleMessage_not_decoded (currentTime : Q) (now : Z)
    (m : LiveServerMessage) (s : Sys) :
  outputAudioContext (svc s) = None \/ decoded m = None ->
  startsIn (emitted s (handleMessage currentTime now m s)) = [].
Proof.
  intros Hno. unfold handleMessage.
  destruct (startsIn_tool_events now m (handleAudio currentTime m s))
    as (l2 & E2 & S2 & _).
  assert (Ha : exists l1, log (handleAudio currentTime m s) = log s ++ l1
                          /\ startsIn l1 = []).
  { unfold handleAudio, decoded in *.
    destruct (inlineData m) as [b64|], (outputAudioContext (svc s)) as [ctx|];
      try (exists []; rewrite app_nil_r; split; reflexivity).
    destruct (String.eqb b64 "");
      [exists []; rewrite app_nil_r; split; reflexivity|].
    destruct Hno as [Hno|Hno]; [discriminate|]. rewrite Hno.
    eexists. split; reflexivity. }
  destruct Ha as (l1 & E1 & S1). rewrite E1, <- app_assoc in E2.
  rewrite (emitted_app _ _ _ E2). unfold startsIn in *.
  rewrite omap_app, S1, S2. reflexivity.
Qed.

Lemma startsIn_log_step (s s' : Sys) (l : list Event) :
  log s' = log s ++ l -> startsIn (log s') = startsIn (log s) ++ startsIn (emitted s s').
Proof.
  intros E. rewrite (emitted_app _ _ _ E), E. apply omap_app.
Qed.

(** Handling a message keeps every scheduled buffer behind the playhead. *)
Lemma playheadCovers_handleMessage (currentTime : Q) (now : Z)
    (m : LiveServerMessage) (s : Sys) :
  playheadCovers s -> playheadCovers (handleMessage currentTime now m s).
Proof.
  intros Hcov. unfold playheadCovers in *.
  destruct (handleMessage_frame currentTime now m s)
    as (l & t & Hlog & Hsvc & _ & _ & _ & Hle).
  rewrite (startsIn_log_step _ _ _ Hlog). apply Forall_app. split.
  - eapply Forall_impl; [exact Hcov|]. intros x Hx. cbv beta in *.
    rewrite Hsvc. cbn [set_nextStartTime nextStartTime].
    eapply Qle_trans; eassumption.
  - destruct (outputAudioContext (svc s)) as [ctx|] eqn:Hctx.
    + destruct (decoded m) as [b|] eqn:Hd.
      * destruct (handleMessage_decoded currentTime now m s ctx b Hctx Hd)
          as [Hst Hsvc'].
        rewrite Hst, Hsvc'. constructor; [|constructor].
        cbn. apply Qle_refl.
      * rewrite handleMessage_not_decoded by (right; exact Hd). constructor.
    + rewrite handleMessage_not_decoded by (left; exact Hctx). constructor.
Qed.

Lemma playheadCovers_handleAll (ms : list (Q * Z * LiveServerMessage)) (s : Sys) :
  playheadCovers s -> playheadCovers (handleAll ms s).
Proof.
  revert s. induction ms as [|[[ct now] m] ms IH]; intros s Hcov; [exact Hcov|].
  apply (IH (handleMessage ct now m s)), playheadCovers_handleMessage, Hcov.
Qed.

(** C6. A chunk whose decoding throws is contained.  Every field of the
    service but the playhead is as before, the resources outside are as
    before, no release operation runs and nothing is scheduled for the chunk;
    the playhead does not move back.  After any further messages, a chunk that
    decodes is scheduled exactly once, no earlier than the output clock read
    for it and no earlier than the end of any buffer scheduled before. *)
Theorem decode_failure_isolated (currentTime : Q) (now : Z) (m : LiveServerMessage)
    (s : Sys) (ctx : handle) (ms : list (Q * Z * LiveServerMessage))
    (currentTime' : Q) (now' : Z) (m' : LiveServerMessage)
    (buffer : Codec.AudioBuffer) :
  decodeFails m ->
  outputAudioContext (svc s) = Some ctx ->
  playheadCovers s ->
  decoded m' = Some buffer ->
  let s1 := handleMessage currentTime now m s in
  let s2 := handleAll ms s1 in
  let s3 := handleMessage currentTime' now' m' s2 in
  svc s1 = set_nextStartTime (nextStartTime (svc s1)) (svc s)
  /\ world s1 = world s
  /\ releasesIn (emitted s s1) = []
  /\ startsIn (emitted s s1) = []
  /\ (nextStartTime (svc s) <= nextStartTime (svc s1))%Q
  /\ exists start,
       startsIn (emitted s2 s3) = [(start, buffer)]
       /\ (currentTime' <= start)%Q
       /\ Forall (fun x => (x.1 + Codec.duration x.2 <= start)%Q)
            (startsIn (log s2)).
Proof.
  intros Hfail Hctx Hcov Hdec s1 s2 s3.
  destruct (handleMessage_frame currentTime now m s)
    as (l & t & Hlog & Hsvc & Hw & Hrel & _ & Hle).
  fold s1 in Hlog, Hsvc, Hw.
  split; [rewrite Hsvc; reflexivity|].
  split; [exact Hw|].
  split; [rewrite (emitted_app _ _ _ Hlog); exact Hrel|].
  split; [apply handleMessage_not_decoded; right;
          apply decodeFails_not_decoded, Hfail|].
  split; [rewrite Hsvc; exact Hle|].
  destruct (handleAll_frame ms s1) as (l2 & t2 & _ & Hsvc2 & _).
  fold s2 in Hsvc2.
  assert (Hctx2 : outputAudioContext (svc s2) = Some ctx)
    by (rewrite Hsvc2, Hsvc; exact Hctx).
  destruct (handleMessage_decoded currentTime' now' m' s2 ctx buffer Hctx2 Hdec)
    as [Hst _].
  fold s3 in Hst.
  exists (Math_max (nextStartTime (svc s2)) currentTime').
  split; [exact Hst|]. split; [apply Math_max_r|].
  assert (Hcov2 : playheadCovers s2)
    by (apply playheadCovers_handleAll, playheadCovers_handleMessage, Hcov).
  eapply Forall_impl; [exact Hcov2|]. intros x Hx. cbv beta in *.
  eapply Qle_trans; [exact Hx | apply Math_max_l].
Qed.

End DecodeFailure.

Lemma decode_failure_isolated_witness :
  let s1 := handleMessage (utils := specAudioUtils) (1 # 2) 1700000000300
              truncatedMessage
              (handleMessage (utils := specAudioUtils) 0 1700000000000
                 audioMessage live) in
  let s0 := handleMessage (utils := specAudioUtils) 0 1700000000000
              audioMessage live in
  let s2 := handleAll (utils := specAudioUtils) [((3 # 4)%Q, 1700000000400, fireMessage)] s1 in
  let s3 := handleMessage (utils := specAudioUtils) (1 # 4) 1700000000500
              audioMessage s2 in
  svc s1 = set_nextStartTime (nextStartTime (svc s1)) (svc s0)
  /\ world s1 = world s0
  /\ releasesIn (emitted s0 s1) = []
  /\ startsIn (emitted s0 s1) = []
  /\ (nextStartTime (svc s0) <= nextStartTime (svc s1))%Q
  /\ exists start,
       startsIn (emitted s2 s3)
       = [(start, {| Codec.samples := Codec.decode_samples
                                         (Stdlib.Strings.String.list_byte_of_string "abcd");
                     Codec.sampleRate := 24000;
                     Codec.numberOfChannels := 1 |})]
       /\ (1 # 4 <= start)%Q
       /\ Forall (fun x => (x.1 + Codec.duration x.2 <= start)%Q)
            (startsIn (log s2)).
Proof.
  apply (decode_failure_isolated (utils := specAudioUtils)
           (1 # 2) 1700000000300 truncatedMessage
           (handleMessage (utils := specAudioUtils) 0 1700000000000 audioMessage live)
           1%nat [((3 # 4)%Q, 1700000000400, fireMessage)]
           (1 # 4) 1700000000500 audioMessage).
  - exists "abc". split; [reflexivity | split; [discriminate | reflexivity]].
  - reflexivity.
  - unfold playheadCovers. cbn. repeat constructor.
    apply Qle_bool_iff. vm_compute. reflexivity.
  - reflexivity.
Defined.

(** ** The capture callback *)

Section CaptureFacts.

Context {utils : AudioUtils}.

Lemma onaudioprocess_frame (inputData : list Q) (s : Sys) :
  log (onaudioprocess inputData s)
  = log s
    ++ (if onAudioLevel (svc s) then [AudioLevel (meanSquare inputData)] else [])
    ++ match currentSession (svc s) with
       | Some session =>
           [SendRealtimeInput session "audio/pcm;rate=16000"
              (arrayBufferToBase64 (float32ToInt16PCM inputData))]
       | None => []
       end
  /\ svc (onaudioprocess inputData s) = svc s
  /\ world (onaudioprocess inputData s) = world s.
Proof.
  unfold onaudioprocess, notify.
  destruct (onAudioLevel (svc s)), (currentSession (svc s)) eqn:C;
    cbn [emit svc world log]; rewrite ?C; cbn [emit svc world log];
    rewrite ?app_nil_r, <- ?app_assoc; repeat split; reflexivity.
Qed.

(** C5. A capture frame that arrives while the service holds no current
    session raises nothing (the callback is a total function of frame and
    state), sends nothing and leaves service and resources as they were, so
    nothing is kept for later: once a session is there, the next frame sends
    its own data only.  The one thing the callback does is the audio-level
    notification, made through the listener slot when one is installed. *)
Theorem capture_frame_dropped_without_channel (inputData : list Q) (s : Sys) :
  currentSession (svc s) = None ->
  let s' := onaudioprocess inputData s in
  svc s' = svc s
  /\ world s' = world s
  /\ realtimeInputsIn (emitted s s') = []
  /\ emitted s s' = (if onAudioLevel (svc s)
                     then [AudioLevel (meanSquare inputData)] else [])
  /\ forall (session : handle) (next : list Q),
       realtimeInputsIn
         (emitted s' (onaudioprocess next (connect_resolved session s')))
       = [(session, arrayBufferToBase64 (float32ToInt16PCM next))].
Proof.
  intros Hnone s'.
  destruct (onaudioprocess_frame inputData s) as (Hlog & Hsvc & Hw).
  fold s' in Hlog, Hsvc, Hw. rewrite Hnone, app_nil_r in Hlog.
  split; [exact Hsvc|]. split; [exact Hw|].
  rewrite (emitted_app _ _ _ Hlog).
  split; [destruct (onAudioLevel (svc s)); reflexivity|].
  split; [reflexivity|].
  intros session next.
  destruct (onaudioprocess_frame next (connect_resolved session s')) as (Hlog' & _).
  change (log (connect_resolved session s')) with (log s') in Hlog'.
  rewrite (emitted_app _ _ _ Hlog').
  cbn [connect_resolved with_svc svc set_currentSession onAudioLevel currentSession].
  destruct (onAudioLevel (svc s')); reflexivity.
Qed.

End CaptureFacts.

Lemma capture_frame_dropped_without_channel_witness :
  let s' := onaudioprocess (utils := specAudioUtils) [1 # 2; -(1 # 2)]%Q detached in
  svc s' = svc detached
  /\ world s' = world detached
  /\ realtimeInputsIn (emitted detached s') = []
  /\ emitted detached s' = (if onAudioLevel (svc detached)
                            then [AudioLevel (meanSquare [1 # 2; -(1 # 2)]%Q)] else [])
  /\ forall (session : handle) (next : list Q),
       realtimeInputsIn
         (emitted s' (onaudioprocess (utils := specAudioUtils) next
                        (connect_resolved session s')))
       = [(session, arrayBufferToBase64 (AudioUtils := specAudioUtils)
                      (float32ToInt16PCM (AudioUtils := specAudioUtils) next))].
Proof.
  apply (capture_frame_dropped_without_channel (utils := specAudioUtils)
           [1 # 2; -(1 # 2)]%Q detached).
  reflexivity.
Defined.

Example frame_sent_when_live :
  realtimeInputsIn (emitted live
    (onaudioprocess (utils := specAudioUtils) [1 # 2; -1]%Q live))
  = [(3%nat, Stdlib.Strings.String.string_of_list_byte ["255"; "063"; "001"; "128"]%byte)].
Proof. reflexivity. Qed.

(** ** Teardown *)

Lemma svc_notify (listener : Service -> bool) (e : Event) (s : Sys) :
  svc (notify listener e s) = svc s /\ world (notify listener e s) = world s.
Proof. unfold notify. destruct (listener (svc s)); split; reflexivity. Qed.

Lemma svc_release_processor (s : Sys) : svc (release_processor s) = svc s.
Proof. unfold release_processor. destruct (processor (svc s)); reflexivity. Qed.

Lemma svc_release_source (s : Sys) : svc (release_source s) = svc s.
Proof. unfold release_source. destruct (source (svc s)); reflexivity. Qed.

Lemma svc_release_stream (s : Sys) : svc (release_stream s) = svc s.
Proof. unfold release_stream. destruct (stream (svc s)); reflexivity. Qed.

Lemma svc_release_context (field : Service -> option handle) (s : Sys) :
  svc (release_context field s) = svc s.
Proof. unfold release_context. destruct (field (svc s)); reflexivity. Qed.

Lemma svc_stop (s : Sys) : svc (stop s) = clear_fields (svc s).
Proof.
  unfold stop. rewrite (proj1 (svc_notify _ _ _)). cbn [with_svc svc].
  rewrite !svc_release_context, svc_release_stream, svc_release_source,
    svc_release_processor.
  reflexivity.
Qed.

(** After [stop] every resource field is null. *)
Lemma stop_clears_fields (s : Sys) :
  processor (svc (stop s)) = None /\ source (svc (stop s)) = None
  /\ stream (svc (stop s)) = None
  /\ inputAudioContext (svc (stop s)) = None
  /\ outputAudioContext (svc (stop s)) = None
  /\ currentSession (svc (stop s)) = None.
Proof. rewrite svc_stop. repeat split; reflexivity. Qed.

(** On a service whose resource fields are null, [stop] only notifies. *)
Lemma stop_when_cleared (s : Sys) :
  processor (svc s) = None -> source (svc s) = None -> stream (svc s) = None ->
  inputAudioContext (svc s) = None -> outputAudioContext (svc s) = None ->
  currentSession (svc s) = None ->
  svc (stop s) = svc s /\ world (stop s) = world s
  /\ log (stop s) = log s ++ (if onStatusChange (svc s)
                             then [StatusChange "Disconnected"] else []).
Proof.
  intros Hp Hs Hst Hi Ho Hc.
  assert (E1 : release_processor s = s)
    by (unfold release_processor; rewrite Hp; reflexivity).
  assert (E2 : release_source s = s)
    by (unfold release_source; rewrite Hs; reflexivity).
  assert (E3 : release_stream s = s)
    by (unfold release_stream; rewrite Hst; reflexivity).
  assert (E4 : release_context inputAudioContext s = s)
    by (unfold release_context; rewrite Hi; reflexivity).
  assert (E5 : release_context outputAudioContext s = s)
    by (unfold release_context; rewrite Ho; reflexivity).
  unfold stop. rewrite E1, E2, E3, E4, E5.
  assert (Hv : clear_fields (svc s) = svc s)
    by (destruct s as [v w l]; destruct v; cbn in *; subst; reflexivity).
  unfold notify, with_svc. cbn [svc world log]. rewrite Hv.
  destruct (onStatusChange (svc s)); cbn [emit svc world log];
    rewrite ?app_nil_r; repeat split; reflexivity.
Qed.

(** C7. [stop] can be called any number of times from any state.  It is a
    total function, so no call throws; after the first call every resource
    field is null, and each later call finds them null, performs no release
    operation and leaves the service and the resources as the first call left
    them. *)
Theorem stop_idempotent (n : nat) (s : Sys) :
  let s1 := stop s in
  let sn := Nat.iter n stop s1 in
  (processor (svc s1) = None /\ source (svc s1) = None /\ stream (svc s1) = None
   /\ inputAudioContext (svc s1) = None /\ outputAudioContext (svc s1) = None
   /\ currentSession (svc s1) = None)
  /\ svc sn = svc s1
  /\ world sn = world s1
  /\ releasesIn (emitted s1 sn) = []
  /\ emitted s1 sn = (if onStatusChange (svc s1)
                      then repeat (StatusChange "Disconnected") n else []).
Proof.
  intros s1 sn. subst sn.
  pose proof (stop_clears_fields s) as Hclr. fold s1 in Hclr.
  split; [exact Hclr|].
  assert (H : svc (Nat.iter n stop s1) = svc s1
              /\ world (Nat.iter n stop s1) = world s1
              /\ log (Nat.iter n stop s1)
                 = log s1 ++ (if onStatusChange (svc s1)
                              then repeat (StatusChange "Disconnected") n else [])).
  { induction n as [|n IH].
    - cbn. destruct (onStatusChange (svc s1)); rewrite app_nil_r; auto.
    - destruct IH as (IHs & IHw & IHl). rewrite Nat.iter_succ.
      destruct Hclr as (Hp & Hs & Hst & Hi & Ho & Hc).
      destruct (stop_when_cleared (Nat.iter n stop s1)) as (Es & Ew & El);
        try (rewrite IHs; assumption).
      rewrite Es, Ew, El, IHs, IHw, IHl. repeat split.
      destruct (onStatusChange (svc s1)); rewrite <- app_assoc; [|reflexivity].
      f_equal. change [StatusChange "Disconnected"]
        with (repeat (StatusChange "Disconnected") 1).
      rewrite <- repeat_app. f_equal. lia. }
  destruct H as (Hs & Hw & Hl).
  split; [exact Hs|]. split; [exact Hw|].
  rewrite (emitted_app _ _ _ Hl). split; [|reflexivity].
  destruct (onStatusChange (svc s1)); [|reflexivity].
  clear. induction n as [|n IH]; [reflexivity | exact IH].
Qed.

Example stop_twice_releases_once :
  releasesIn (emitted live (stop (stop live)))
  = [NodeDisconnect 5%nat; HandlerCleared 5%nat; NodeDisconnect 4%nat;
     TrackStop 2%nat; ContextClose 0%nat; ContextClose 1%nat].
Proof. reflexivity. Qed.

(** What [stop] does to the resources outside: it releases what the fields
    refer to, and never touches the channel. *)
Lemma world_stop (s : Sys) :
  open_contexts (world (stop s))
  = open_contexts (world s)
    ∖ (handles (inputAudioContext (svc s)) ∪ handles (outputAudioContext (svc s)))
  /\ live_streams (world (stop s)) = live_streams (world s) ∖ handles (stream (svc s))
  /\ wired_nodes (world (stop s))
     = wired_nodes (world s) ∖ (handles (processor (svc s)) ∪ handles (source (svc s)))
  /\ capture_handlers (world (stop s))
     = capture_handlers (world s) ∖ handles (processor (svc s))
  /\ open_channels (world (stop s)) = open_channels (world s)
  /\ next_handle (world (stop s)) = next_handle (world s).
Proof.
  unfold stop. rewrite (proj2 (svc_notify _ _ _)).
  destruct s as [[i o st p src t sp cs r1 r2 r3] w l].
  destruct i, o, st, p, src; cbn; unfold released, handles; repeat split;
    rewrite ?union_empty_l_L, ?union_empty_r_L, ?difference_empty_L,
      ?difference_difference_l_L; reflexivity.
Qed.

(** The on-close callback runs the teardown of [stop] and the closed channel
    is gone. *)
Lemma onclose_tears_down (ch : handle) (s : Sys) :
  svc (onclose ch s) = clear_fields (svc s)
  /\ open_contexts (world (onclose ch s))
     = open_contexts (world s)
       ∖ (handles (inputAudioContext (svc s)) ∪ handles (outputAudioContext (svc s)))
  /\ live_streams (world (onclose ch s))
     = live_streams (world s) ∖ handles (stream (svc s))
  /\ wired_nodes (world (onclose ch s))
     = wired_nodes (world s) ∖ (handles (processor (svc s)) ∪ handles (source (svc s)))
  /\ capture_handlers (world (onclose ch s))
     = capture_handlers (world s) ∖ handles (processor (svc s))
  /\ open_channels (world (onclose ch s)) = open_channels (world s) ∖ {[ch]}.
Proof.
  unfold onclose. rewrite svc_stop.
  destruct (world_stop (notify onStatusChange (StatusChange "Disconnected")
                          (with_world (map_channels (released ch)) s)))
    as (H1 & H2 & H3 & H4 & H5 & _).
  rewrite H1, H2, H3, H4, H5.
  rewrite !(proj1 (svc_notify _ _ _)), !(proj2 (svc_notify _ _ _)).
  repeat split.
Qed.

Example onclose_live_releases_everything :
  holdsNothing (world (onclose 3%nat live))
  /\ svc (onclose 3%nat live)
     = set_sessionPromise (Some 3%nat) (newService true true true).
Proof. vm_compute. repeat split. Qed.

Lemma onerror_frame (s : Sys) :
  svc (onerror s) = svc s /\ world (onerror s) = world s
  /\ releasesIn (emitted s (onerror s)) = [].
Proof.
  unfold onerror.
  rewrite (proj1 (svc_notify _ _ _)), (proj2 (svc_notify _ _ _)).
  split; [reflexivity|]. split; [reflexivity|].
  unfold notify. cbn [emit svc].
  destruct (onStatusChange (svc s)); cbn [emit log].
  - rewrite (emitted_app _ _ [ConsoleError "Live API Error:";
                              StatusChange "Connection Error"]);
      [reflexivity | cbn [emit log]; rewrite <- app_assoc; reflexivity].
  - rewrite (emitted_app _ _ [ConsoleError "Live API Error:"]); reflexivity.
Qed.

(** C4 (the on-error half, on the code). On a connected session the on-error
    callback logs and notifies "Connection Error" and nothing else: no
    release operation runs and processor, source, stream, both audio contexts
    and the session reference are all still held, whereas the on-close
    callback on the same session releases every one of them. *)
Theorem onerror_leaves_session_held :
  svc (onerror live) = svc live
  /\ world (onerror live) = world live
  /\ emitted live (onerror live)
     = [ConsoleError "Live API Error:"; StatusChange "Connection Error"]
  /\ processor (svc (onerror live)) = Some 5%nat
  /\ source (svc (onerror live)) = Some 4%nat
  /\ stream (svc (onerror live)) = Some 2%nat
  /\ inputAudioContext (svc (onerror live)) = Some 0%nat
  /\ outputAudioContext (svc (onerror live)) = Some 1%nat
  /\ currentSession (svc (onerror live)) = Some 3%nat
  /\ open_contexts (world (onerror live)) = {[0%nat; 1%nat]}
  /\ live_streams (world (onerror live)) = {[2%nat]}
  /\ wired_nodes (world (onerror live)) = {[4%nat; 5%nat]}
  /\ capture_handlers (world (onerror live)) = {[5%nat]}
  /\ holdsNothing (world (onclose 3%nat live)).
Proof. vm_compute. repeat split. Qed.

(** ** Connecting *)

Lemma acquired_twice (a b : handle) (X : gset handle) :
  {[b]} ∪ ({[a]} ∪ X) = {[a; b]} ∪ X.
Proof. rewrite (assoc_L (∪)), (comm_L (∪) {[b]} {[a]}). reflexivity. Qed.

(** What a [connect] call does when the microphone is granted and the channel
    opens, whatever the state it is called in. *)
Lemma connect_acquires (userLocation : option GeoLocation) (s : Sys) :
  let n := next_handle (world s) in
  let r := connect true true userLocation s in
  r.1 = None
  /\ inputAudioContext (svc r.2) = Some n
  /\ outputAudioContext (svc r.2) = Some (1 + n)%nat
  /\ stream (svc r.2) = Some (2 + n)%nat
  /\ currentSession (svc r.2) = Some (3 + n)%nat
  /\ source (svc r.2) = Some (4 + n)%nat
  /\ processor (svc r.2) = Some (5 + n)%nat
  /\ open_contexts (world r.2) = {[n; (1 + n)%nat]} ∪ open_contexts (world s)
  /\ live_streams (world r.2) = {[(2 + n)%nat]} ∪ live_streams (world s)
  /\ open_channels (world r.2) = {[(3 + n)%nat]} ∪ open_channels (world s)
  /\ wired_nodes (world r.2) = {[(4 + n)%nat; (5 + n)%nat]} ∪ wired_nodes (world s)
  /\ capture_handlers (world r.2) = {[(5 + n)%nat]} ∪ capture_handlers (world s).
Proof.
  destruct s as [[i o st p src t sp cs r1 r2 r3] w l].
  destruct r3; cbn; unfold acquired; repeat split; try reflexivity;
    apply acquired_twice.
Qed.

(** C3 (as the code has it). [connect] does not look at the state of the
    service.  With the microphone granted and the channel opening, every
    call, in whatever state it is made, returns normally, takes six new
    handles (two audio contexts, a stream, a channel, a source and a
    processor node), stores them in the fields in place of what these
    referred to, and adds them to the resources that were open, releasing
    none of those.  Called on a service for which nothing is open, it
    therefore leaves exactly one set of resources held, the one the fields
    refer to. *)
Theorem connect_ignores_state (userLocation : option GeoLocation) (s : Sys) :
  let n := next_handle (world s) in
  let r := connect true true userLocation s in
  r.1 = None
  /\ inputAudioContext (svc r.2) = Some n
  /\ outputAudioContext (svc r.2) = Some (1 + n)%nat
  /\ stream (svc r.2) = Some (2 + n)%nat
  /\ currentSession (svc r.2) = Some (3 + n)%nat
  /\ source (svc r.2) = Some (4 + n)%nat
  /\ processor (svc r.2) = Some (5 + n)%nat
  /\ open_contexts (world r.2) = {[n; (1 + n)%nat]} ∪ open_contexts (world s)
  /\ live_streams (world r.2) = {[(2 + n)%nat]} ∪ live_streams (world s)
  /\ open_channels (world r.2) = {[(3 + n)%nat]} ∪ open_channels (world s)
  /\ wired_nodes (world r.2)
     = {[(4 + n)%nat; (5 + n)%nat]} ∪ wired_nodes (world s)
  /\ capture_handlers (world r.2)
     = {[(5 + n)%nat]} ∪ capture_handlers (world s)
  /\ (holdsNothing (world s) ->
      open_contexts (world r.2) = {[n; (1 + n)%nat]}
      /\ live_streams (world r.2) = {[(2 + n)%nat]}
      /\ open_channels (world r.2) = {[(3 + n)%nat]}
      /\ wired_nodes (world r.2) = {[(4 + n)%nat; (5 + n)%nat]}
      /\ capture_handlers (world r.2) = {[(5 + n)%nat]}).
Proof.
  pose proof (connect_acquires userLocation s) as A. cbv zeta in A |- *.
  destruct A as (E & Fi & Fo & Fs & Fc & Fsrc & Fp & W1 & W2 & W3 & W4 & W5).
  split; [exact E|]. split; [exact Fi|]. split; [exact Fo|].
  split; [exact Fs|]. split; [exact Fc|]. split; [exact Fsrc|].
  split; [exact Fp|]. split; [exact W1|]. split; [exact W2|].
  split; [exact W3|]. split; [exact W4|]. split; [exact W5|].
  intros (H1 & H2 & H3 & H4 & H5).
  rewrite H1 in W1. rewrite H2 in W2. rewrite H5 in W3. rewrite H3 in W4.
  rewrite H4 in W5.
  rewrite W1, W2, W3, W4, W5. repeat split; apply union_empty_r_L.
Qed.

(** On a service for which nothing is open, a [connect] that goes through
    leaves exactly one set of resources held, the one the fields refer to. *)
Theorem connect_from_idle_holds_one_set (userLocation : option GeoLocation)
    (s : Sys) :
  holdsNothing (world s) ->
  let n := next_handle (world s) in
  let r := connect true true userLocation s in
  r.1 = None
  /\ open_contexts (world r.2) = {[n; (1 + n)%nat]}
  /\ live_streams (world r.2) = {[(2 + n)%nat]}
  /\ open_channels (world r.2) = {[(3 + n)%nat]}
  /\ wired_nodes (world r.2) = {[(4 + n)%nat; (5 + n)%nat]}
  /\ capture_handlers (world r.2) = {[(5 + n)%nat]}
  /\ inputAudioContext (svc r.2) = Some n
  /\ outputAudioContext (svc r.2) = Some (1 + n)%nat
  /\ stream (svc r.2) = Some (2 + n)%nat
  /\ currentSession (svc r.2) = Some (3 + n)%nat
  /\ source (svc r.2) = Some (4 + n)%nat
  /\ processor (svc r.2) = Some (5 + n)%nat.
Proof.
  intros (H1 & H2 & H3 & H4 & H5) n r.
  destruct (connect_acquires userLocation s)
    as (E & Fi & Fo & Fs & Fc & Fsrc & Fp & W1 & W2 & W3 & W4 & W5).
  fold n r in E, Fi, Fo, Fs, Fc, Fsrc, Fp, W1, W2, W3, W4, W5.
  split; [exact E|].
  rewrite W1, W2, W3, W4, W5, H1, H2, H3, H4, H5.
  clear W1 W2 W3 W4 W5 H1 H2 H3 H4 H5.
  do 5 (split; [apply union_empty_r_L|]).
  split; [exact Fi|]. split; [exact Fo|]. split; [exact Fs|].
  split; [exact Fc|]. split; [exact Fsrc | exact Fp].
Qed.

Lemma connect_from_idle_holds_one_set_witness :
  let r := connect true true None (initial true true true) in
  r.1 = None
  /\ open_contexts (world r.2) = {[0; 1]}%nat
  /\ live_streams (world r.2) = {[2%nat]}
  /\ open_channels (world r.2) = {[3%nat]}
  /\ wired_nodes (world r.2) = {[4; 5]}%nat
  /\ capture_handlers (world r.2) = {[5%nat]}
  /\ inputAudioContext (svc r.2) = Some 0%nat
  /\ outputAudioContext (svc r.2) = Some 1%nat
  /\ stream (svc r.2) = Some 2%nat
  /\ currentSession (svc r.2) = Some 3%nat
  /\ source (svc r.2) = Some 4%nat
  /\ processor (svc r.2) = Some 5%nat.
Proof.
  apply (connect_from_idle_holds_one_set None (initial true true true)).
  repeat split; reflexivity.
Defined.

(** C3 as stated fails: a second [connect] on a connected service is neither
    rejected nor a no-op; it creates a second set of resources next to the
    first, which stays open and is no longer referred to. *)
Lemma second_connect_creates_second_set :
  (connect true true None live).1 = None
  /\ open_contexts (world live) = {[0; 1]}%nat
  /\ open_contexts (world connectedTwice) = {[0; 1; 6; 7]}%nat
  /\ live_streams (world connectedTwice) = {[2; 8]}%nat
  /\ open_channels (world connectedTwice) = {[3; 9]}%nat
  /\ wired_nodes (world connectedTwice) = {[4; 5; 10; 11]}%nat
  /\ inputAudioContext (svc connectedTwice) = Some 6%nat
  /\ outputAudioContext (svc connectedTwice) = Some 7%nat
  /\ size (open_contexts (world connectedTwice)) = 4%nat.
Proof. vm_compute. repeat split. Qed.

(** C8 (as the code has it). When the microphone is refused, [connect] fails
    with the permission error and acquires no stream, node or channel.  The
    two audio contexts created before the request are not released by the
    failing call: they stay open and referred to by the fields, and a [stop]
    that follows closes both and clears the fields. *)
Theorem connect_mic_denied (channelOpens : bool)
    (userLocation : option GeoLocation) (s : Sys) :
  let n := next_handle (world s) in
  let r := connect false channelOpens userLocation s in
  r.1 = Some PermissionError
  /\ stream (svc r.2) = stream (svc s)
  /\ processor (svc r.2) = processor (svc s)
  /\ source (svc r.2) = source (svc s)
  /\ currentSession (svc r.2) = currentSession (svc s)
  /\ live_streams (world r.2) = live_streams (world s)
  /\ wired_nodes (world r.2) = wired_nodes (world s)
  /\ capture_handlers (world r.2) = capture_handlers (world s)
  /\ open_channels (world r.2) = open_channels (world s)
  /\ inputAudioContext (svc r.2) = Some n
  /\ outputAudioContext (svc r.2) = Some (1 + n)%nat
  /\ open_contexts (world r.2) = {[n; (1 + n)%nat]} ∪ open_contexts (world s)
  /\ (n ∉ open_contexts (world (stop r.2)))
  /\ ((1 + n)%nat ∉ open_contexts (world (stop r.2)))
  /\ inputAudioContext (svc (stop r.2)) = None
  /\ outputAudioContext (svc (stop r.2)) = None.
Proof.
  intros n r.
  assert (H : r.1 = Some PermissionError
              /\ stream (svc r.2) = stream (svc s)
              /\ processor (svc r.2) = processor (svc s)
              /\ source (svc r.2) = source (svc s)
              /\ currentSession (svc r.2) = currentSession (svc s)
              /\ live_streams (world r.2) = live_streams (world s)
              /\ wired_nodes (world r.2) = wired_nodes (world s)
              /\ capture_handlers (world r.2) = capture_handlers (world s)
              /\ open_channels (world r.2) = open_channels (world s)
              /\ inputAudioContext (svc r.2) = Some n
              /\ outputAudioContext (svc r.2) = Some (1 + n)%nat
              /\ open_contexts (world r.2)
                 = {[n; (1 + n)%nat]} ∪ open_contexts (world s)).
  { subst n r. destruct s as [[i o st p src t sp cs r1 r2 r3] w l].
    destruct r3; cbn; unfold acquired; repeat split; try reflexivity;
      apply acquired_twice. }
  destruct H as (E & F1 & F2 & F3 & F4 & W1 & W2 & W3 & W4 & Fi & Fo & Wc).
  repeat (split; [assumption|]).
  destruct (world_stop r.2) as (S1 & _). rewrite S1, Fi, Fo. cbn [handles].
  destruct (stop_clears_fields r.2) as (_ & _ & _ & Ci & Co & _).
  split; [apply not_elem_of_difference; right; apply elem_of_union; left;
          apply elem_of_singleton; reflexivity|].
  split; [apply not_elem_of_difference; right; apply elem_of_union; right;
          apply elem_of_singleton; reflexivity|].
  split; [exact Ci | exact Co].
Qed.

(** C8 as stated fails: after the refused request the two audio contexts are
    still open. *)
Lemma mic_denied_leaves_contexts_open :
  (connect false true None (initial true true true)).1 = Some PermissionError
  /\ open_contexts (world micDenied) = {[0; 1]}%nat
  /\ inputAudioContext (svc micDenied) = Some 0%nat
  /\ outputAudioContext (svc micDenied) = Some 1%nat
  /\ releasesIn (log micDenied) = [].
Proof. vm_compute. repeat split. Qed.

(** ** The playhead invariant on every run *)

Section Invariant.

Context {utils : AudioUtils}.

(** An operation that schedules nothing and leaves the playhead alone keeps
    the invariant. *)
Lemma playheadCovers_quiet (s s' : Sys) (l : list Event) :
  log s' = log s ++ l -> startsIn l = [] ->
  nextStartTime (svc s') = nextStartTime (svc s) ->
  playheadCovers s -> playheadCovers s'.
Proof.
  intros Hlog Hl Hn Hcov. unfold playheadCovers in *.
  rewrite Hlog, Hn. unfold startsIn in *. rewrite omap_app, Hl, app_nil_r.
  exact Hcov.
Qed.

Lemma notify_quiet (listener : Service -> bool) (e : Event) (s : Sys) :
  (forall c t b, e <> SourceStart c t b) ->
  exists l, log (notify listener e s) = log s ++ l /\ startsIn l = [].
Proof.
  intros He. unfold notify. destruct (listener (svc s)).
  - exists [e]. split; [reflexivity|]. destruct e; try reflexivity.
    exfalso. eapply He. reflexivity.
  - exists []. rewrite app_nil_r. split; reflexivity.
Qed.

Lemma playheadCovers_stop (s : Sys) : playheadCovers s -> playheadCovers (stop s).
Proof.
  destruct s as [[i o st p src t sp cs r1 r2 r3] w l].
  unfold playheadCovers, startsIn.
  destruct i, o, st, p, src, r3; cbn; rewrite ?omap_app; cbn;
    rewrite ?app_nil_r; trivial.
Qed.

Lemma playheadCovers_connect (micGranted channelOpens : bool)
    (userLocation : option GeoLocation) (s : Sys) :
  playheadCovers s ->
  playheadCovers (connect micGranted channelOpens userLocation s).2.
Proof.
  destruct s as [[i o st p src t sp cs r1 r2 r3] w l].
  unfold playheadCovers, startsIn.
  destruct micGranted, channelOpens, r3; cbn; rewrite ?omap_app; cbn;
    rewrite ?app_nil_r; trivial.
Qed.

Lemma playheadCovers_step (a : Action) (s : Sys) :
  playheadCovers s -> playheadCovers (step a s).
Proof.
  intros Hcov. destruct a as [mic opens loc | ct now m | frame | ch | |]; cbn [step].
  - apply playheadCovers_connect, Hcov.
  - apply playheadCovers_handleMessage, Hcov.
  - destruct (onaudioprocess_frame frame s) as (Hlog & Hsvc & _).
    eapply playheadCovers_quiet; [exact Hlog | | rewrite Hsvc; reflexivity | exact Hcov].
    destruct (onAudioLevel (svc s)), (currentSession (svc s)); reflexivity.
  - unfold onclose. apply playheadCovers_stop.
    destruct (notify_quiet onStatusChange (StatusChange "Disconnected")
                (with_world (map_channels (released ch)) s)) as (l & Hl & Hs);
      [discriminate|].
    eapply playheadCovers_quiet; [exact Hl | exact Hs | | exact Hcov].
    rewrite (proj1 (svc_notify _ _ _)). reflexivity.
  - unfold onerror.
    destruct (notify_quiet onStatusChange (StatusChange "Connection Error")
                (emit (ConsoleError "Live API Error:") s)) as (l & Hl & Hs);
      [discriminate|].
    eapply (playheadCovers_quiet (emit (ConsoleError "Live API Error:") s));
      [exact Hl | exact Hs | rewrite (proj1 (svc_notify _ _ _)); reflexivity |].
    eapply (playheadCovers_quiet s); [reflexivity | reflexivity | reflexivity | exact Hcov].
  - apply playheadCovers_stop, Hcov.
Qed.

(** Every state a fresh service can reach has all scheduled buffers behind
    its playhead. *)
Lemma playheadCovers_run (actions : list Action) (report level status : bool) :
  playheadCovers (run actions (initial report level status)).
Proof.
  assert (H : forall s, playheadCovers s -> playheadCovers (run actions s)).
  { induction actions as [|a actions IH]; intros s Hs; [exact Hs|].
    apply (IH (step a s)), playheadCovers_step, Hs. }
  apply H. constructor.
Qed.

End Invariant.

(** * Further properties of the service *)

(** ** The audio level *)

Lemma square_le_1 (x : Q) : (-1 <= x <= 1)%Q -> (0 <= x * x <= 1)%Q.
Proof.
  intros [Hlo Hhi]. destruct x as [n d]. unfold Qle in *. cbn in *. split; nia.
Qed.

Lemma sumSquares_bounds (l : list Q) :
  Forall (fun x => (-1 <= x <= 1)%Q) l ->
  forall acc : Q,
    (acc <= fold_left (fun sum x => sum + x * x)%Q l acc)%Q
    /\ (fold_left (fun sum x => sum + x * x)%Q l acc
        <= acc + inject_Z (Z.of_nat (length l)))%Q.
Proof.
  induction 1 as [|x l Hx Hl IH]; intros acc.
  - cbn. split; [apply Qle_refl|]. rewrite Qplus_0_r. apply Qle_refl.
  - cbn [fold_left length]. destruct (IH (acc + x * x)%Q) as [IHlo IHhi].
    destruct (square_le_1 x Hx) as [Hsq0 Hsq1].
    rewrite Nat2Z.inj_succ, <- Z.add_1_l, inject_Z_plus.
    change (inject_Z 1) with 1%Q. split; lra.
Qed.

(** X1. The level computed for a capture frame.  An empty frame gives NaN
    (0/0).  For a frame that is not empty and whose samples lie in [-1,1] the
    mean of the squares is a number between 0 and 1, so the level notified,
    its square root, lies in [0,1] too. *)
Theorem audio_level_in_unit_interval (inputData : list Q) :
  Forall (fun x => (-1 <= x <= 1)%Q) inputData ->
  meanSquare [] = NaN
  /\ (inputData <> [] ->
      exists q, meanSquare inputData = Num q /\ (0 <= q <= 1)%Q).
Proof.
  intros Hall. split; [reflexivity|]. intros Hne.
  destruct inputData as [|x l]; [congruence|].
  eexists. split; [reflexivity|].
  destruct (sumSquares_bounds (x :: l) Hall 0) as [Hlo Hhi].
  fold (sumSquares (x :: l)) in Hlo, Hhi.
  set (n := inject_Z (Z.of_nat (length (x :: l)))) in *.
  assert (Hn : (0 < n)%Q).
  { subst n. change 0%Q with (inject_Z 0). rewrite <- Zlt_Qlt. cbn [length]. lia. }
  split.
  - apply Qle_shift_div_l; [exact Hn | lra].
  - apply Qle_shift_div_r; [exact Hn | lra].
Qed.

Lemma audio_level_in_unit_interval_witness :
  meanSquare [] = NaN
  /\ ([1 # 2; -1; 0; 3 # 4]%Q <> [] ->
      exists q, meanSquare [1 # 2; -1; 0; 3 # 4]%Q = Num q /\ (0 <= q <= 1)%Q).
Proof.
  apply (audio_level_in_unit_interval [1 # 2; -1; 0; 3 # 4]%Q).
  repeat constructor; unfold Qle; simpl; lia.
Defined.

(** ** Capture frames in sequence *)

Section CaptureSequence.

Context {utils : AudioUtils}.

Lemma captureAll_frame (frames : list (list Q)) (s : Sys) :
  log (captureAll frames s)
  = log s
    ++ flat_map (fun inputData =>
         (if onAudioLevel (svc s) then [AudioLevel (meanSquare inputData)] else [])
         ++ match currentSession (svc s) with
            | Some session =>
                [SendRealtimeInput session "audio/pcm;rate=16000"
                   (arrayBufferToBase64 (float32ToInt16PCM inputData))]
            | None => []
            end) frames
  /\ svc (captureAll frames s) = svc s
  /\ world (captureAll frames s) = world s.
Proof.
  revert s. induction frames as [|f frames IH]; intros s.
  - cbn. rewrite app_nil_r. repeat split.
  - cbn [captureAll fold_left flat_map].
    destruct (onaudioprocess_frame f s) as (L1 & S1 & W1).
    destruct (IH (onaudioprocess f s)) as (L2 & S2 & W2).
    unfold captureAll in *. rewrite L2, S2, W2, L1, S1, W1, <- !app_assoc.
    repeat split.
Qed.

(** X2. While the service holds a session, a run of capture frames sends
    exactly one realtime input per frame, in the order the frames fired, each
    to that session and carrying that frame's encoded data; one level per
    frame goes to the level listener when one is installed; neither the
    fields nor the resources change. *)
Theorem capture_sends_each_frame_once (frames : list (list Q)) (s : Sys)
    (session : handle) :
  currentSession (svc s) = Some session ->
  let s' := captureAll frames s in
  realtimeInputsIn (emitted s s')
  = map (fun inputData =>
           (session, arrayBufferToBase64 (float32ToInt16PCM inputData))) frames
  /\ audioLevelsIn (emitted s s')
     = (if onAudioLevel (svc s) then map meanSquare frames else [])
  /\ svc s' = svc s
  /\ world s' = world s.
Proof.
  intros Hs s'. destruct (captureAll_frame frames s) as (Hlog & Hsvc & Hw).
  fold s' in Hlog, Hsvc, Hw. rewrite Hs in Hlog.
  rewrite (emitted_app _ _ _ Hlog).
  split; [|split; [|split; [exact Hsvc | exact Hw]]].
  - clear. induction frames as [|f frames IH]; [reflexivity|].
    cbn [flat_map map]. unfold realtimeInputsIn in *.
    rewrite !omap_app, IH. destruct (onAudioLevel (svc s)); reflexivity.
  - clear. induction frames as [|f frames IH];
      [destruct (onAudioLevel (svc s)); reflexivity|].
    cbn [flat_map map]. unfold audioLevelsIn in *.
    rewrite !omap_app, IH. destruct (onAudioLevel (svc s)); reflexivity.
Qed.

End CaptureSequence.

Lemma capture_sends_each_frame_once_witness :
  let frames := [[1 # 2; -1]; []; [0; 1 # 4; -(3 # 4)]]%Q in
  let s' := captureAll (utils := specAudioUtils) frames live in
  realtimeInputsIn (emitted live s')
  = map (fun inputData =>
           (3%nat, arrayBufferToBase64 (AudioUtils := specAudioUtils)
                     (float32ToInt16PCM (AudioUtils := specAudioUtils) inputData)))
      frames
  /\ audioLevelsIn (emitted live s')
     = (if onAudioLevel (svc live) then map meanSquare frames else [])
  /\ svc s' = svc live
  /\ world s' = world live.
Proof.
  apply (capture_sends_each_frame_once (utils := specAudioUtils)
           [[1 # 2; -1]; []; [0; 1 # 4; -(3 # 4)]]%Q live 3%nat).
  reflexivity.
Defined.

(** ** The on-open guard *)

(** X3. When the channel opens on a service that has no input context or no
    stream (it was stopped in the meantime), [handleOpen] creates no node and
    installs no capture handler: fields and resources stay as they were and
    the only thing done is the "Live" notification. *)
Theorem handleOpen_without_capture (s : Sys) :
  inputAudioContext (svc s) = None \/ stream (svc s) = None ->
  svc (handleOpen s) = svc s
  /\ world (handleOpen s) = world s
  /\ emitted s (handleOpen s)
     = (if onStatusChange (svc s) then [StatusChange "Live"] else []).
Proof.
  intros Hno. unfold handleOpen.
  assert (E : match inputAudioContext
                      (svc (notify onStatusChange (StatusChange "Live") s)),
                    stream (svc (notify onStatusChange (StatusChange "Live") s))
              with
              | Some _, Some _ => true
              | _, _ => false
              end = false).
  { rewrite (proj1 (svc_notify _ _ _)).
    destruct Hno as [-> | ->]; [reflexivity|].
    destruct (inputAudioContext (svc s)); reflexivity. }
  destruct (inputAudioContext
              (svc (notify onStatusChange (StatusChange "Live") s)));
    destruct (stream (svc (notify onStatusChange (StatusChange "Live") s)));
    try discriminate;
    (split; [apply svc_notify|]; split; [apply svc_notify|];
     unfold notify; destruct (onStatusChange (svc s));
     [apply emitted_app; reflexivity
     | apply emitted_app; symmetry; apply app_nil_r]).
Qed.

Lemma handleOpen_without_capture_witness :
  svc (handleOpen detached) = svc detached
  /\ world (handleOpen detached) = world detached
  /\ emitted detached (handleOpen detached)
     = (if onStatusChange (svc detached) then [StatusChange "Live"] else []).
Proof.
  apply (handleOpen_without_capture detached). left. reflexivity.
Defined.

(** ** Messages without playable audio *)

Section MessageFacts.

Context {utils : AudioUtils}.

(** The listener calls and the responses one message gives rise to. *)
Lemma tool_calls_acknowledged_aux (currentTime : Q) (now : Z)
    (m : LiveServerMessage) (s : Sys) :
  reportsIn (emitted s (handleMessage currentTime now m s))
  = (if onReportSubmitted (svc s) then map fc_args (reportCalls m) else [])
  /\ toolResponsesIn (emitted s (handleMessage currentTime now m s))
     = match currentSession (svc s), reportCalls m with
       | Some session, _ :: _ =>
           [(session, map (acknowledgement now) (reportCalls m))]
       | _, _ => []
       end.
Proof.
  unfold handleMessage.
  destruct (handleAudio_frame currentTime m s)
    as (l & Hlog & Hr & Ht & _ & _ & _ & t & Hsvc).
  destruct (handleToolCall_frame now m (handleAudio currentTime m s))
    as (Hlog' & _ & _).
  rewrite Hlog, Hsvc in Hlog'.
  cbn [set_nextStartTime onReportSubmitted currentSession] in Hlog'.
  rewrite <- app_assoc in Hlog'.
  rewrite (emitted_app _ _ _ Hlog').
  unfold reportsIn, toolResponsesIn in *. rewrite !omap_app, Hr, Ht. cbn [app].
  split.
  - destruct (onReportSubmitted (svc s)).
    + fold (reportsIn (map (fun fc => ReportSubmitted (fc_args fc)) (reportCalls m))).
      rewrite reportsIn_reports.
      destruct (currentSession (svc s)), (reportCalls m); cbn;
        rewrite ?app_nil_r; reflexivity.
    + destruct (currentSession (svc s)), (reportCalls m); reflexivity.
  - destruct (onReportSubmitted (svc s)).
    + fold (toolResponsesIn
              (map (fun fc => ReportSubmitted (fc_args fc)) (reportCalls m))).
      rewrite toolResponsesIn_reports.
      destruct (currentSession (svc s)), (reportCalls m); reflexivity.
    + destruct (currentSession (svc s)), (reportCalls m); reflexivity.
Qed.

(** X4. A message that carries no inline audio, or an empty one, or that
    arrives while there is no output context, leaves the service fields
    exactly as they were (the playhead is not even moved up to the clock),
    schedules nothing and logs no error. *)
Theorem audio_skipped_leaves_playhead (currentTime : Q) (now : Z)
    (m : LiveServerMessage) (s : Sys) :
  outputAudioContext (svc s) = None \/ inlineData m = None
  \/ inlineData m = Some "" ->
  let s' := handleMessage currentTime now m s in
  svc s' = svc s
  /\ world s' = world s
  /\ startsIn (emitted s s') = []
  /\ consoleErrorsIn (emitted s s') = [].
Proof.
  intros Hskip s'.
  assert (Ha : handleAudio currentTime m s = s).
  { unfold handleAudio.
    destruct (inlineData m) as [b64|]; [|reflexivity].
    destruct (outputAudioContext (svc s)); [|reflexivity].
    destruct Hskip as [H | [H | H]]; try discriminate.
    injection H as ->. reflexivity. }
  subst s'. unfold handleMessage. rewrite Ha.
  destruct (handleToolCall_frame now m s) as (Hlog & Hsvc & Hw).
  split; [exact Hsvc|]. split; [exact Hw|].
  rewrite (emitted_app _ _ _ Hlog).
  assert (H : forall fcs,
             startsIn (map (fun fc => ReportSubmitted (fc_args fc)) fcs) = []
             /\ consoleErrorsIn (map (fun fc => ReportSubmitted (fc_args fc)) fcs) = [])
    by (induction fcs; cbn; auto).
  destruct (H (reportCalls m)) as [H1 H2].
  unfold startsIn, consoleErrorsIn in *. rewrite !omap_app.
  destruct (onReportSubmitted (svc s)); rewrite ?H1, ?H2;
    destruct (currentSession (svc s)), (reportCalls m); split; reflexivity.
Qed.

(** What a run of messages appends for the tool calls they carry. *)
Lemma handleAll_reports (ms : list (Q * Z * LiveServerMessage)) (s : Sys) :
  reportsIn (emitted s (handleAll ms s))
  = (if onReportSubmitted (svc s)
     then flat_map (fun x => map fc_args (reportCalls x.2)) ms else [])
  /\ toolResponsesIn (emitted s (handleAll ms s))
     = match currentSession (svc s) with
       | Some session =>
           flat_map (fun x => match reportCalls x.2 with
                              | [] => []
                              | _ :: _ =>
                                  [(session,
                                    map (acknowledgement x.1.2) (reportCalls x.2))]
                              end) ms
       | None => []
       end.
Proof.
  revert s. induction ms as [|[[ct now] m] ms IH]; intros s.
  - unfold emitted. cbn. rewrite drop_all.
    destruct (onReportSubmitted (svc s)), (currentSession (svc s)); split; reflexivity.
  - destruct (handleMessage_frame ct now m s) as (l1 & t1 & L1 & S1 & _).
    destruct (handleAll_frame ms (handleMessage ct now m s)) as (l2 & t2 & L2 & _).
    assert (L : log (handleAll ((ct, now, m) :: ms) s) = log s ++ (l1 ++ l2)).
    { change (handleAll ((ct, now, m) :: ms) s)
        with (handleAll ms (handleMessage ct now m s)).
      rewrite L2, L1, <- app_assoc. reflexivity. }
    destruct (IH (handleMessage ct now m s)) as [IHr IHt].
    rewrite (emitted_app _ _ _ L2) in IHr, IHt.
    destruct (tool_calls_acknowledged_aux ct now m s) as [Hr Ht].
    rewrite (emitted_app _ _ _ L1) in Hr, Ht.
    rewrite (emitted_app _ _ _ L).
    unfold reportsIn, toolResponsesIn in *. rewrite !omap_app, IHr, IHt, Hr, Ht.
    rewrite S1. cbn [set_nextStartTime onReportSubmitted currentSession flat_map snd fst].
    split.
    + destruct (onReportSubmitted (svc s)); reflexivity.
    + destruct (currentSession (svc s)); [|reflexivity].
      destruct (reportCalls m); reflexivity.
Qed.

End MessageFacts.

Section MessageSequences.

Context {utils : AudioUtils}.

(** A message on which the handler does not suspend leaves the fields alone. *)
Lemma handleMessage_not_awaiting (currentTime : Q) (now : Z)
    (m : LiveServerMessage) (s : Sys) :
  ~ awaitsDecode s m -> svc (handleMessage currentTime now m s) = svc s.
Proof.
  intros Hna. unfold handleMessage.
  destruct (handleToolCall_frame now m (handleAudio currentTime m s))
    as (_ & Hsvc & _).
  rewrite Hsvc. unfold handleAudio.
  destruct (inlineData m) as [b64|] eqn:Hm; [|reflexivity].
  destruct (outputAudioContext (svc s)) as [ctx|] eqn:Hctx; [|reflexivity].
  destruct (String.eqb_spec b64 "") as [->|Hne]; [reflexivity|].
  exfalso. apply Hna. exists b64, ctx. repeat split; assumption.
Qed.

Lemma handleAll_not_awaiting (ms : list (Q * Z * LiveServerMessage)) (s : Sys) :
  Forall (fun x => ~ awaitsDecode s x.2) ms -> svc (handleAll ms s) = svc s.
Proof.
  revert s. induction ms as [|[[ct now] m] ms IH]; intros s Hall; [reflexivity|].
  apply Forall_cons in Hall as [Hm Hall]. cbn [snd] in Hm.
  pose proof (handleMessage_not_awaiting ct now m s Hm) as Hsvc.
  change (handleAll ((ct, now, m) :: ms) s)
    with (handleAll ms (handleMessage ct now m s)).
  rewrite IH; [exact Hsvc|].
  eapply Forall_impl; [exact Hall|]. intros x Hx (b & c & H1 & H2 & H3).
  apply Hx. exists b, c. rewrite Hsvc in H3. repeat split; assumption.
Qed.

(** X5. Over any sequence of inbound messages on none of which the handler
    suspends (no message carries inline audio that is not empty while there
    is an output context, so every call runs to its end before the next
    message is handled): the report listener (when installed) is invoked
    exactly once per request named reportEmergency, in arrival order and
    with that request's arguments; while a session is held, each message
    with at least one such request is answered by exactly one
    [sendToolResponse] call carrying one success response per request, and
    messages without one are not answered; and no field of the service
    changes. *)
Theorem tool_calls_over_messages (ms : list (Q * Z * LiveServerMessage))
    (s : Sys) :
  Forall (fun x => ~ awaitsDecode s x.2) ms ->
  let out := emitted s (handleAll ms s) in
  reportsIn out
  = (if onReportSubmitted (svc s)
     then flat_map (fun x => map fc_args (reportCalls x.2)) ms else [])
  /\ toolResponsesIn out
     = match currentSession (svc s) with
       | Some session =>
           flat_map (fun x => match reportCalls x.2 with
                              | [] => []
                              | _ :: _ =>
                                  [(session,
                                    map (acknowledgement x.1.2) (reportCalls x.2))]
                              end) ms
       | None => []
       end
  /\ svc (handleAll ms s) = svc s.
Proof.
  intros Hall out. destruct (handleAll_reports ms s) as [Hr Ht].
  split; [exact Hr|]. split; [exact Ht|].
  exact (handleAll_not_awaiting ms s Hall).
Qed.

(** X6. Handling inbound messages, however many and whatever they carry,
    never acquires or releases anything: the resources outside are unchanged,
    no release operation runs, nothing is sent on the realtime input, and of
    the service fields only the playhead may change. *)
Theorem messages_leave_resources_alone (ms : list (Q * Z * LiveServerMessage))
    (s : Sys) :
  let s' := handleAll ms s in
  world s' = world s
  /\ releasesIn (emitted s s') = []
  /\ realtimeInputsIn (emitted s s') = []
  /\ inputAudioContext (svc s') = inputAudioContext (svc s)
  /\ outputAudioContext (svc s') = outputAudioContext (svc s)
  /\ stream (svc s') = stream (svc s)
  /\ processor (svc s') = processor (svc s)
  /\ source (svc s') = source (svc s)
  /\ sessionPromise (svc s') = sessionPromise (svc s)
  /\ currentSession (svc s') = currentSession (svc s).
Proof.
  intros s'. destruct (handleAll_frame ms s) as (l & t & L & S & W & R & I & _).
  fold s' in L, S, W. rewrite (emitted_app _ _ _ L), S.
  repeat split; assumption.
Qed.

Lemma nextStartTime_step (a : Action) (s : Sys) :
  (nextStartTime (svc s) <= nextStartTime (svc (step a s)))%Q
  /\ (notMessage a -> nextStartTime (svc (step a s)) = nextStartTime (svc s)).
Proof.
  destruct a as [mic opens loc | ct now m | frame | ch | |]; cbn [step notMessage].
  - assert (E : nextStartTime (svc (connect mic opens loc s).2)
                = nextStartTime (svc s)).
    { destruct s as [[i o st p src t sp cs r1 r2 r3] w l].
      destruct mic, opens, r3; reflexivity. }
    rewrite E. split; [apply Qle_refl | reflexivity].
  - destruct (handleMessage_frame ct now m s) as (l & t & _ & S & _ & _ & _ & T).
    rewrite S. split; [exact T | intros []].
  - destruct (onaudioprocess_frame frame s) as (_ & S & _). rewrite S.
    split; [apply Qle_refl | reflexivity].
  - unfold onclose. rewrite svc_stop, (proj1 (svc_notify _ _ _)).
    split; [apply Qle_refl | reflexivity].
  - unfold onerror. rewrite (proj1 (svc_notify _ _ _)).
    split; [apply Qle_refl | reflexivity].
  - rewrite svc_stop. split; [apply Qle_refl | reflexivity].
Qed.

(** X7. Along any sequence of events (connects, messages, capture frames,
    channel closes and errors, stops) the playhead never moves back, and it is
    changed by inbound messages only: in particular neither [stop] nor a new
    [connect] resets it. *)
Theorem playhead_never_reset (actions : list Action) (s : Sys) :
  (nextStartTime (svc s) <= nextStartTime (svc (run actions s)))%Q
  /\ (Forall notMessage actions ->
      nextStartTime (svc (run actions s)) = nextStartTime (svc s)).
Proof.
  revert s. induction actions as [|a actions IH]; intros s.
  - cbn. split; [apply Qle_refl | reflexivity].
  - change (run (a :: actions) s) with (run actions (step a s)).
    destruct (IH (step a s)) as [IHle IHeq].
    destruct (nextStartTime_step a s) as [Hle Heq]. split.
    + eapply Qle_trans; eassumption.
    + intros Hall. apply Forall_cons in Hall as [Ha Hall].
      rewrite (IHeq Hall). apply Heq, Ha.
Qed.

End MessageSequences.

Example playhead_survives_reconnect :
  nextStartTime (svc (run (utils := specAudioUtils)
    [Connect true true None; Message (5 # 1) 0 audioMessage; Stop;
     Connect true true None; Message 0 0 audioMessage]
    (initial true true true)))
  = ((5 # 1) + (2 # 24000) + (2 # 24000))%Q.
Proof. reflexivity. Qed.

(** ** Connecting and tearing down *)

Lemma release_pair (a b : handle) :
  ({[a; b]} ∪ ∅ : gset handle) ∖ ({[a]} ∪ {[b]}) = ∅.
Proof. rewrite union_empty_r_L. apply difference_diag_L. Qed.

Lemma release_pair_swapped (a b : handle) :
  ({[a; b]} ∪ ∅ : gset handle) ∖ ({[b]} ∪ {[a]}) = ∅.
Proof.
  rewrite union_empty_r_L, (comm_L (∪) {[b]} {[a]}). apply difference_diag_L.
Qed.

Lemma release_single (a : handle) : ({[a]} ∪ ∅ : gset handle) ∖ {[a]} = ∅.
Proof. rewrite union_empty_r_L. apply difference_diag_L. Qed.

(** What [stop] appends to the log. *)
Lemma log_stop (s : Sys) :
  log (stop s)
  = log s
    ++ match processor (svc s) with
       | Some p => [NodeDisconnect p; HandlerCleared p]
       | None => []
       end
    ++ match source (svc s) with Some n => [NodeDisconnect n] | None => [] end
    ++ match stream (svc s) with Some st => [TrackStop st] | None => [] end
    ++ match inputAudioContext (svc s) with
       | Some c => [ContextClose c]
       | None => []
       end
    ++ match outputAudioContext (svc s) with
       | Some c => [ContextClose c]
       | None => []
       end
    ++ (if onStatusChange (svc s) then [StatusChange "Disconnected"] else []).
Proof.
  destruct s as [[i o st p src t sp cs r1 r2 r3] w l].
  destruct i, o, st, p, src, r3; cbn; rewrite <- ?app_assoc, ?app_nil_r;
    reflexivity.
Qed.



(** What the on-close callback appends to the log. *)
Lemma log_onclose (ch : handle) (s : Sys) :
  log (onclose ch s)
  = log s
    ++ (if onStatusChange (svc s) then [StatusChange "Disconnected"] else [])
    ++ match processor (svc s) with
       | Some p => [NodeDisconnect p; HandlerCleared p]
       | None => []
       end
    ++ match source (svc s) with Some n => [NodeDisconnect n] | None => [] end
    ++ match stream (svc s) with Some st => [TrackStop st] | None => [] end
    ++ match inputAudioContext (svc s) with
       | Some c => [ContextClose c]
       | None => []
       end
    ++ match outputAudioContext (svc s) with
       | Some c => [ContextClose c]
       | None => []
       end
    ++ (if onStatusChange (svc s) then [StatusChange "Disconnected"] else []).
Proof.
  unfold onclose. rewrite log_stop, !(proj1 (svc_notify _ _ _)).
  cbn [with_world svc]. unfold notify. cbn [with_world svc].
  destruct (onStatusChange (svc s)); cbn [emit with_world log];
    rewrite <- ?app_assoc; reflexivity.
Qed.

(** [connect] leaves the listener slots as they are. *)
Lemma listeners_connect (micGranted channelOpens : bool)
    (userLocation : option GeoLocation) (s : Sys) :
  onReportSubmitted (svc (connect micGranted channelOpens userLocation s).2)
  = onReportSubmitted (svc s)
  /\ onAudioLevel (svc (connect micGranted channelOpens userLocation s).2)
     = onAudioLevel (svc s)
  /\ onStatusChange (svc (connect micGranted channelOpens userLocation s).2)
     = onStatusChange (svc s).
Proof.
  destruct s as [[i o st p src t sp cs r1 r2 r3] w l].
  destruct micGranted, channelOpens, r3; repeat split.
Qed.

(** X9. When the channel of a connection made from an idle service closes,
    the on-close callback leaves nothing held at all: no context, stream,
    node, capture handler or channel stays open and every resource field is
    null.  The "Disconnected" status is notified twice, once by the callback
    and once by the [stop] it calls. *)
Theorem connect_then_close_holds_nothing (userLocation : option GeoLocation)
    (s : Sys) :
  holdsNothing (world s) ->
  let n := next_handle (world s) in
  let s1 := (connect true true userLocation s).2 in
  let s2 := onclose (3 + n)%nat s1 in
  holdsNothing (world s2)
  /\ svc s2 = clear_fields (svc s1)
  /\ statusesIn (emitted s1 s2)
     = (if onStatusChange (svc s)
        then ["Disconnected"; "Disconnected"] else []).
Proof.
  intros (H1 & H2 & H3 & H4 & H5) n s1 s2.
  destruct (connect_acquires userLocation s)
    as (_ & Fi & Fo & Fs & Fc & Fsrc & Fp & W1 & W2 & W3 & W4 & W5).
  fold n s1 in Fi, Fo, Fs, Fc, Fsrc, Fp, W1, W2, W3, W4, W5.
  destruct (onclose_tears_down (3 + n)%nat s1) as (S0 & S1 & S2 & S3 & S4 & S5).
  pose proof (log_onclose (3 + n)%nat s1) as L.
  pose proof (listeners_connect true true userLocation s) as (_ & _ & Hflag).
  fold s2 in S0, S1, S2, S3, S4, S5, L. fold s1 in Hflag.
  clearbody s2 s1 n.
  split; [|split; [exact S0|]].
  - unfold holdsNothing.
    rewrite S1, S2, S3, S4, S5, Fi, Fo, Fs, Fsrc, Fp, W1, W2, W3, W4, W5,
      H1, H2, H3, H4, H5. cbn [handles].
    split; [apply release_pair|]. split; [apply release_single|].
    split; [apply release_pair_swapped|]. split; apply release_single.
  - rewrite (emitted_app _ _ _ L), <- Hflag. unfold statusesIn.
    rewrite !omap_app.
    destruct (onStatusChange (svc s1)), (processor (svc s1)), (source (svc s1)),
      (stream (svc s1)), (inputAudioContext (svc s1)),
      (outputAudioContext (svc s1)); reflexivity.
Qed.

Lemma connect_then_close_holds_nothing_witness :
  let s1 := (connect true true None (initial true true true)).2 in
  let s2 := onclose 3%nat s1 in
  holdsNothing (world s2)
  /\ svc s2 = clear_fields (svc s1)
  /\ statusesIn (emitted s1 s2)
     = (if onStatusChange (svc (initial true true true))
        then ["Disconnected"; "Disconnected"] else []).
Proof.
  apply (connect_then_close_holds_nothing None (initial true true true)).
  repeat split; reflexivity.
Defined.

(** X10. When the microphone is granted but the channel does not open, the
    awaited promise rejects and [connect] fails with the connection error.
    The on-open callback never ran, so there is no node and no capture
    handler and the session reference is as before; the two audio contexts
    and the media stream acquired on the way stay open and referred to by the
    fields, and a [stop] that follows releases them. *)
Theorem connect_channel_failure (userLocation : option GeoLocation) (s : Sys) :
  let n := next_handle (world s) in
  let r := connect true false userLocation s in
  r.1 = Some ConnectionError
  /\ currentSession (svc r.2) = currentSession (svc s)
  /\ processor (svc r.2) = processor (svc s)
  /\ source (svc r.2) = source (svc s)
  /\ wired_nodes (world r.2) = wired_nodes (world s)
  /\ capture_handlers (world r.2) = capture_handlers (world s)
  /\ inputAudioContext (svc r.2) = Some n
  /\ outputAudioContext (svc r.2) = Some (1 + n)%nat
  /\ stream (svc r.2) = Some (2 + n)%nat
  /\ open_contexts (world r.2) = {[n; (1 + n)%nat]} ∪ open_contexts (world s)
  /\ live_streams (world r.2) = {[(2 + n)%nat]} ∪ live_streams (world s)
  /\ (n ∉ open_contexts (world (stop r.2)))
  /\ ((1 + n)%nat ∉ open_contexts (world (stop r.2)))
  /\ ((2 + n)%nat ∉ live_streams (world (stop r.2))).
Proof.
  intros n r.
  assert (H : r.1 = Some ConnectionError
              /\ currentSession (svc r.2) = currentSession (svc s)
              /\ processor (svc r.2) = processor (svc s)
              /\ source (svc r.2) = source (svc s)
              /\ wired_nodes (world r.2) = wired_nodes (world s)
              /\ capture_handlers (world r.2) = capture_handlers (world s)
              /\ inputAudioContext (svc r.2) = Some n
              /\ outputAudioContext (svc r.2) = Some (1 + n)%nat
              /\ stream (svc r.2) = Some (2 + n)%nat
              /\ open_contexts (world r.2)
                 = {[n; (1 + n)%nat]} ∪ open_contexts (world s)
              /\ live_streams (world r.2)
                 = {[(2 + n)%nat]} ∪ live_streams (world s)).
  { subst n r. destruct s as [[i o st p src t sp cs r1 r2 r3] w l].
    destruct r3; cbn; unfold acquired, released; repeat split;
      try reflexivity; apply acquired_twice. }
  destruct H as (E & F1 & F2 & F3 & W1 & W2 & Fi & Fo & Fs & Wc & Wst).
  repeat (split; [assumption|]).
  destruct (world_stop r.2) as (S1 & S2 & _). rewrite S1, S2, Fi, Fo, Fs.
  cbn [handles].
  split; [apply not_elem_of_difference; right; apply elem_of_union; left;
          apply elem_of_singleton; reflexivity|].
  split; [apply not_elem_of_difference; right; apply elem_of_union; right;
          apply elem_of_singleton; reflexivity|].
  apply not_elem_of_difference; right; apply elem_of_singleton; reflexivity.
Qed.

(** X11. The statuses a [connect] call reports to an installed listener, in
    order: all four phases up to "Live" when it succeeds, the first two when
    the microphone is refused, the first three when the channel does not
    open.  A failing [connect] itself reports no failure status. *)
Theorem connect_status_sequence (micGranted channelOpens : bool)
    (userLocation : option GeoLocation) (s : Sys) :
  statusesIn (emitted s (connect micGranted channelOpens userLocation s).2)
  = if onStatusChange (svc s)
    then ["Initializing Audio..."; "Requesting Mic..."]
         ++ (if micGranted
             then "Connecting to HQ..." :: (if channelOpens then ["Live"] else [])
             else [])
    else [].
Proof.
  destruct s as [[i o st p src t sp cs r1 r2 r3] w l].
  destruct micGranted, channelOpens, r3; unfold emitted; cbn;
    rewrite <- ?app_assoc; rewrite ?drop_app_length, ?drop_all; reflexivity.
Qed.

(** * Further properties of the component *)

(** ** The report handler over several drafts *)

Section HandlerFacts.

Variable StringToNumber : string -> JsNumber.

(** X12. Drafts handed to the report handler one after the other end up in
    front of the reports that were there, newest first; each new report is
    pending and carries its draft's type, people count and needs and the
    clock read for it; the device-location ref is not touched, and the toast
    is shown. *)
Theorem reports_newest_first (drafts : list (Z * Draft.t)) (a : AppState) :
  let a' := submitAll StringToNumber drafts a in
  userLocationRef a' = userLocationRef a
  /\ (drafts <> [] -> toastMessage a' = Some "Report Submitted Successfully")
  /\ exists news,
       reports a' = news ++ reports a
       /\ map Report.timestamp news = rev (map fst drafts)
       /\ map Report.emergencyType news
          = rev (map (fun x => Draft.emergencyType x.2) drafts)
       /\ map Report.peopleCount news
          = rev (map (fun x => Draft.peopleCount x.2) drafts)
       /\ map Report.criticalNeeds news
          = rev (map (fun x => Draft.criticalNeeds x.2) drafts)
       /\ Forall (fun r => Report.status r = pending) news.
Proof.
  revert a. induction drafts as [|[now data] drafts IH]; intros a a'.
  - subst a'. cbn. split; [reflexivity|]. split; [congruence|].
    exists []. repeat split; constructor.
  - subst a'. cbn [submitAll fold_left fst snd].
    set (a1 := onReportSubmittedHandler StringToNumber now data a).
    destruct (IH a1) as (Href & Htoast & news & Hrep & Ht & He & Hp & Hc & Hs).
    assert (H1 : userLocationRef a1 = userLocationRef a
                 /\ toastMessage a1 = Some "Report Submitted Successfully"
                 /\ exists r, reports a1 = r :: reports a
                      /\ Report.timestamp r = now
                      /\ Report.emergencyType r = Draft.emergencyType data
                      /\ Report.peopleCount r = Draft.peopleCount data
                      /\ Report.criticalNeeds r = Draft.criticalNeeds data
                      /\ Report.status r = pending).
    { subst a1. unfold onReportSubmittedHandler.
      destruct (resolveLocation StringToNumber data (userLocationRef a)).
      split; [reflexivity|]. split; [reflexivity|].
      eexists. repeat split. }
    destruct H1 as (Href1 & Htoast1 & r & Hr & Hrt & Hre & Hrp & Hrc & Hrs).
    unfold submitAll in *. split; [rewrite Href; exact Href1|]. split.
    + intros _. destruct drafts as [|d drafts]; [exact Htoast1|].
      apply Htoast. discriminate.
    + exists (news ++ [r]). rewrite Hrep, Hr, <- app_assoc.
      split; [reflexivity|]. rewrite !map_app. cbn [map rev fst snd].
      rewrite Ht, He, Hp, Hc, Hrt, Hre, Hrp, Hrc.
      repeat split. apply Forall_app. split; [exact Hs|].
      constructor; [exact Hrs | constructor].
Qed.

(** X13. How the handler marks where a report's location came from.  When
    the draft provides no usable coordinates and a device location is known,
    the report sits at the device location and its description is the draft's
    behind "[Device GPS] ".  When neither is there, it sits at the default
    centre and the description is the draft's, unmarked.  When the draft
    provides coordinates, the description is behind "[name] " if the draft
    names the place and unmarked otherwise, and never behind the device
    mark. *)
Theorem report_description_provenance (now : Z) (data : Draft.t) (a : AppState) :
  exists r,
    reports (onReportSubmittedHandler StringToNumber now data a) = r :: reports a
    /\ (hasProvidedCoords StringToNumber data = false ->
        forall device, userLocationRef a = Some device ->
        Report.location r = device
        /\ Report.description r = "[Device GPS] " +:+ Draft.description data)
    /\ (hasProvidedCoords StringToNumber data = false ->
        userLocationRef a = None ->
        Report.location r = defaultCenter
        /\ Report.description r = Draft.description data)
    /\ (hasProvidedCoords StringToNumber data = true ->
        Report.description r
        = match Draft.locationName data with
          | Some name => if String.eqb name "" then Draft.description data
                         else ("[" +:+ name +:+ "] ") +:+ Draft.description data
          | None => Draft.description data
          end).
Proof.
  unfold onReportSubmittedHandler, resolveLocation, locationPrefix.
  destruct (hasProvidedCoords StringToNumber data) eqn:Hp.
  - cbn. eexists. split; [reflexivity|]. cbn [Report.location Report.description].
    split; [discriminate|]. split; [discriminate|]. intros _.
    unfold truthy. destruct (Draft.locationName data) as [name|]; [|reflexivity].
    destruct (String.eqb name ""); reflexivity.
  - destruct (userLocationRef a) as [device|]; cbn;
      (eexists; split; [reflexivity|]); cbn [Report.location Report.description];
      (split; [|split]); try discriminate; intros _.
    + intros d [= <-]. split; reflexivity.
    + intros _. split; reflexivity.
Qed.

End HandlerFacts.

Example two_drafts_newest_first :
  map Report.description
    (reports (submitAll digitsOnly
       [(1700000000000, fireDraft);
        (1700000000500,
         {| Draft.emergencyType := "Flood"; Draft.description := "Water rising";
            Draft.peopleCount := Some (Num 0); Draft.criticalNeeds := None;
            Draft.locationName := Some "Current Location";
            Draft.latitude := VUndefined; Draft.longitude := VUndefined |})]
       {| userLocationRef := Some {| lat := Num 1; lng := Num 2 |};
          reports := []; toastMessage := None |}))
  = ["[Device GPS] Water rising"; "Apartment fire"].
Proof. reflexivity. Qed.

(** ** The component and its service *)

Section ComponentFacts.

Context {utils : AudioUtils}.

Variable StringToNumber : string -> JsNumber.

(** What a batch of service events does to the component. *)
Lemma deliver_fold (now : Z) (l : list Event) (a : App) :
  let a' := fold_left (deliver StringToNumber now) l a in
  isConnected a' = isConnected a
  /\ userLocation a' = userLocation a
  /\ showReports a' = showReports a
  /\ geminiRef a' = geminiRef a
  /\ statusText a' = match last (statusesIn l) with
                     | Some t => t
                     | None => statusText a
                     end
  /\ audioLevel a' = match last (audioLevelsIn l) with
                     | Some x => RootOf x
                     | None => audioLevel a
                     end
  /\ ui a' = submitAll StringToNumber (map (fun d => (now, d)) (reportsIn l)) (ui a).
Proof.
  revert a. induction l as [|e l IH]; intros a a'.
  - repeat split.
  - subst a'. cbn [fold_left].
    destruct (IH (deliver StringToNumber now a e)) as (H1 & H2 & H3 & H4 & H5 & H6 & H7).
    rewrite H1, H2, H3, H4, H5, H6, H7. clear IH H1 H2 H3 H4 H5 H6 H7.
    destruct e; cbn; repeat split;
      try (rewrite last_cons; destruct (last _); reflexivity).
Qed.

(** The state a successful connection attempt leads to. *)
Lemma toggle_on_result (now : Z) (x : AppSys) :
  isConnected (component x) = false ->
  let n := next_handle (env x) in
  toggleConnection StringToNumber true true now x
  = {| component :=
         {| isConnected := true;
            statusText := "Live";
            audioLevel := audioLevel (component x);
            userLocation := userLocation (component x);
            showReports := showReports (component x);
            ui := ui (component x);
            geminiRef :=
              Some {| inputAudioContext := Some n;
                      outputAudioContext := Some (1 + n)%nat;
                      stream := Some (2 + n)%nat;
                      processor := Some (5 + n)%nat;
                      source := Some (4 + n)%nat;
                      nextStartTime := 0;
                      sessionPromise := Some (3 + n)%nat;
                      currentSession := Some (3 + n)%nat;
                      onReportSubmitted := true;
                      onAudioLevel := true;
                      onStatusChange := true |} |};
       env :=
         {| next_handle := (6 + n)%nat;
            open_contexts := {[(1 + n)%nat]} ∪ ({[n]} ∪ open_contexts (env x));
            live_streams := {[(2 + n)%nat]} ∪ live_streams (env x);
            wired_nodes := {[(5 + n)%nat]} ∪ ({[(4 + n)%nat]} ∪ wired_nodes (env x));
            capture_handlers := {[(5 + n)%nat]} ∪ capture_handlers (env x);
            open_channels := {[(3 + n)%nat]} ∪ open_channels (env x) |};
       wire := wire x
               ++ [StatusChange "Initializing Audio...";
                   StatusChange "Requesting Mic...";
                   StatusChange "Connecting to HQ...";
                   LiveConnect (3 + n)%nat (userLocationRef (ui (component x)));
                   StatusChange "Live"] |}.
Proof.
  intros H n. unfold toggleConnection. rewrite H. reflexivity.
Qed.

(** The ref follows the positions delivered by the device. *)
Lemma positions_fold (positions : list GeoLocation) (a : App) :
  let a' := fold_left (fun a p => onPosition p a) positions a in
  reports (ui a') = reports (ui a)
  /\ userLocationRef (ui a')
     = match last positions with
       | Some p => Some p
       | None => userLocationRef (ui a)
       end
  /\ userLocation a'
     = match last positions with
       | Some p => Some p
       | None => userLocation a
       end.
Proof.
  revert a. induction positions as [|p positions IH]; intros a a'.
  - repeat split.
  - subst a'. cbn [fold_left]. destruct (IH (onPosition p a)) as (H1 & H2 & H3).
    rewrite H1, H2, H3, last_cons. destruct (last positions); repeat split.
Qed.

(** X14. The handler falls back on the most recent device position: after
    any number of position updates, a draft without usable coordinates gives
    a report located at the last position delivered. *)
Theorem report_uses_latest_position (now : Z) (data : Draft.t)
    (positions : list GeoLocation) (latest : GeoLocation) (a : App) :
  hasProvidedCoords StringToNumber data = false ->
  last positions = Some latest ->
  let a' := deliver StringToNumber now
              (fold_left (fun a p => onPosition p a) positions a)
              (ReportSubmitted data) in
  exists r, reports (ui a') = r :: reports (ui a) /\ Report.location r = latest.
Proof.
  intros Hp Hlast a'. subst a'.
  destruct (positions_fold positions a) as (Hr & Href & _).
  rewrite Hlast in Href. cbn [deliver set_ui ui].
  unfold onReportSubmittedHandler, resolveLocation. rewrite Hp, Href, <- Hr. cbn.
  eexists. split; reflexivity.
Qed.

End ComponentFacts.

Lemma report_uses_latest_position_witness :
  let a' := deliver digitsOnly 1700000000000
              (fold_left (fun a p => onPosition p a)
                 [{| lat := Num 1; lng := Num 2 |}; {| lat := Num 3; lng := Num 4 |}]
                 initialApp)
              (ReportSubmitted
                 {| Draft.emergencyType := "Flood"; Draft.description := "Water rising";
                    Draft.peopleCount := None; Draft.criticalNeeds := None;
                    Draft.locationName := None;
                    Draft.latitude := VUndefined; Draft.longitude := VUndefined |}) in
  exists r, reports (ui a') = r :: reports (ui initialApp)
            /\ Report.location r = {| lat := Num 3; lng := Num 4 |}.
Proof.
  apply (report_uses_latest_position digitsOnly 1700000000000 _
           [{| lat := Num 1; lng := Num 2 |}; {| lat := Num 3; lng := Num 4 |}]);
    reflexivity.
Defined.


Lemma acquired_pair_released (a b : handle) (X : gset handle) :
  X = ∅ -> ({[b]} ∪ ({[a]} ∪ X)) ∖ ({[a]} ∪ {[b]}) = ∅.
Proof.
  intros ->. rewrite union_empty_r_L, (comm_L (∪) {[b]} {[a]}).
  apply difference_diag_L.
Qed.

Lemma acquired_pair_released_swapped (a b : handle) (X : gset handle) :
  X = ∅ -> ({[b]} ∪ ({[a]} ∪ X)) ∖ ({[b]} ∪ {[a]}) = ∅.
Proof. intros ->. rewrite union_empty_r_L. apply difference_diag_L. Qed.

Lemma acquired_one_released (a : handle) (X : gset handle) :
  X = ∅ -> ({[a]} ∪ X) ∖ {[a]} = ∅.
Proof. intros ->. rewrite union_empty_r_L. apply difference_diag_L. Qed.

Section Toggling.

Context {utils : AudioUtils}.

Variable StringToNumber : string -> JsNumber.

(** X15. Toggling while not connected, with the microphone granted and the
    channel opening, creates a new service with all three listeners, connects
    it with the position the ref holds at that moment, and ends connected
    with the status "Live"; the reports are untouched and the resources of
    the new service are added to whatever was open. *)
Theorem toggle_on_goes_live (now : Z) (x : AppSys) :
  isConnected (component x) = false ->
  let n := next_handle (env x) in
  let x' := toggleConnection StringToNumber true true now x in
  isConnected (component x') = true
  /\ statusText (component x') = "Live"
  /\ ui (component x') = ui (component x)
  /\ (exists v, geminiRef (component x') = Some v
                /\ currentSession v = Some (3 + n)%nat
                /\ onReportSubmitted v = true /\ onAudioLevel v = true
                /\ onStatusChange v = true)
  /\ wire x'
     = wire x
       ++ [StatusChange "Initializing Audio..."; StatusChange "Requesting Mic...";
           StatusChange "Connecting to HQ...";
           LiveConnect (3 + n)%nat (userLocationRef (ui (component x)));
           StatusChange "Live"]
  /\ open_contexts (env x') = {[n; (1 + n)%nat]} ∪ open_contexts (env x)
  /\ live_streams (env x') = {[(2 + n)%nat]} ∪ live_streams (env x)
  /\ open_channels (env x') = {[(3 + n)%nat]} ∪ open_channels (env x).
Proof.
  intros H n x'. subst x'. rewrite (toggle_on_result StringToNumber now x H).
  fold n. cbn [component env wire isConnected statusText ui geminiRef
                 open_contexts live_streams open_channels].
  split; [reflexivity|]. split; [reflexivity|]. split; [reflexivity|].
  split; [eexists; repeat split|].
  split; [reflexivity|].
  split; [apply acquired_twice|]. split; reflexivity.
Qed.

(** The state toggling leads to when connected. *)
Lemma toggle_off_result (micGranted channelOpens : bool) (now : Z) (x : AppSys)
    (v : Service) :
  isConnected (component x) = true ->
  geminiRef (component x) = Some v ->
  let s := stop {| svc := v; world := env x; log := [] |} in
  let x' := toggleConnection StringToNumber micGranted channelOpens now x in
  isConnected (component x') = false
  /\ statusText (component x') = "Ready"
  /\ ui (component x') = ui (component x)
  /\ geminiRef (component x') = Some (svc s)
  /\ env x' = world s
  /\ wire x' = wire x ++ log s.
Proof.
  intros Hc Hv. cbv zeta.
  assert (E : reportsIn (log (stop {| svc := v; world := env x; log := [] |})) = []).
  { rewrite log_stop. cbn [log svc app]. unfold reportsIn.
    rewrite !omap_app.
    destruct (processor v), (source v), (stream v), (inputAudioContext v),
      (outputAudioContext v), (onStatusChange v); reflexivity. }
  unfold toggleConnection, onService. rewrite Hc, Hv. cbv zeta.
  generalize dependent (stop {| svc := v; world := env x; log := [] |}).
  intros s E.
  cbn [component env wire isConnected statusText ui geminiRef
         set_statusText set_isConnected].
  destruct (deliver_fold StringToNumber now (log s)
              (set_geminiRef (Some (svc s)) (component x)))
    as (_ & _ & _ & Hg & _ & _ & Hu).
  rewrite Hg, Hu, E. repeat split.
Qed.

End Toggling.

Section ComponentRuns.

Context {utils : AudioUtils}.

Variable StringToNumber : string -> JsNumber.

(** Handling a message notifies neither a status nor a level. *)
Lemma handleMessage_quiet (currentTime : Q) (now : Z) (m : LiveServerMessage)
    (s : Sys) :
  exists l,
    log (handleMessage currentTime now m s) = log s ++ l
    /\ statusesIn l = [] /\ audioLevelsIn l = [].
Proof.
  unfold handleMessage.
  destruct (handleToolCall_frame now m (handleAudio currentTime m s)) as (E & _ & _).
  assert (Ha : exists l1, log (handleAudio currentTime m s) = log s ++ l1
                          /\ statusesIn l1 = [] /\ audioLevelsIn l1 = []
                          /\ svc (handleAudio currentTime m s)
                             = set_nextStartTime
                                 (nextStartTime (svc (handleAudio currentTime m s)))
                                 (svc s)).
  { unfold handleAudio.
    destruct (inlineData m) as [b64|], (outputAudioContext (svc s)) as [ctx|];
      try (exists []; rewrite app_nil_r; repeat split; destruct (svc s); reflexivity).
    destruct (String.eqb b64 "");
      [exists []; rewrite app_nil_r; repeat split; destruct (svc s); reflexivity|].
    destruct (decodeAudioData (base64ToUint8Array b64));
      eexists; split; try reflexivity; repeat split. }
  destruct Ha as (l1 & E1 & S1 & A1 & Hsvc).
  rewrite E1, Hsvc in E.
  cbn [set_nextStartTime onReportSubmitted currentSession] in E.
  rewrite <- app_assoc in E. eexists. split; [exact E|].
  assert (H : forall fcs,
             statusesIn (map (fun fc => ReportSubmitted (fc_args fc)) fcs) = []
             /\ audioLevelsIn (map (fun fc => ReportSubmitted (fc_args fc)) fcs) = [])
    by (induction fcs; cbn; auto).
  destruct (H (reportCalls m)) as [H1 H2].
  unfold statusesIn, audioLevelsIn in *. rewrite !omap_app, S1, A1.
  destruct (onReportSubmitted (svc s)); rewrite ?H1, ?H2;
    destruct (currentSession (svc s)), (reportCalls m); split; reflexivity.
Qed.

(** What an inbound message does to the component. *)
Lemma appMessage_frame (currentTime : Q) (now : Z) (m : LiveServerMessage)
    (x : AppSys) (v : Service) :
  geminiRef (component x) = Some v ->
  let x' := appMessage StringToNumber currentTime now m x in
  isConnected (component x') = isConnected (component x)
  /\ statusText (component x') = statusText (component x)
  /\ env x' = env x
  /\ ui (component x')
     = submitAll StringToNumber
         (map (fun d => (now, d))
            (if onReportSubmitted v then map fc_args (reportCalls m) else []))
         (ui (component x))
  /\ (exists t, geminiRef (component x') = Some (set_nextStartTime t v))
  /\ exists l, wire x' = wire x ++ l
       /\ toolResponsesIn l
          = match currentSession v, reportCalls m with
            | Some session, _ :: _ =>
                [(session, map (acknowledgement now) (reportCalls m))]
            | _, _ => []
            end.
Proof.
  intros Hv x'. subst x'. unfold appMessage, onService. rewrite Hv.
  set (s0 := {| svc := v; world := env x; log := [] |}).
  destruct (handleMessage_frame currentTime now m s0)
    as (l & t & _ & Hsvc & Hw & _).
  destruct (handleMessage_quiet currentTime now m s0) as (l' & Hlog & Hst & Hlv).
  destruct (tool_calls_acknowledged_aux currentTime now m s0) as [Hr Ht].
  change (emitted s0 (handleMessage currentTime now m s0))
    with (log (handleMessage currentTime now m s0)) in Hr, Ht.
  set (s := handleMessage currentTime now m s0) in *. clearbody s.
  cbn [component env wire].
  destruct (deliver_fold StringToNumber now (log s)
              (set_geminiRef (Some (svc s)) (component x)))
    as (H1 & _ & _ & H4 & H5 & _ & H7).
  change (log s0 ++ l') with l' in Hlog. subst l'.
  rewrite H1, H4, H5, H7, Hst, Hr, Hsvc, Hw.
  cbn [set_geminiRef isConnected statusText ui geminiRef svc world
         onReportSubmitted currentSession].
  repeat split.
  - exists t. reflexivity.
  - exists (log s). split; [reflexivity | exact Ht].
Qed.

(** X16. A message's tool calls, seen from the component: every request
    named reportEmergency in it becomes one report, through the report
    handler and in request order, in front of the earlier reports; the status
    text, the connection flag and the resources are unchanged; and the answer
    goes out on the channel only while the service holds a session. *)
Theorem message_reports_reach_component (currentTime : Q) (now : Z)
    (m : LiveServerMessage) (x : AppSys) (v : Service) :
  geminiRef (component x) = Some v ->
  onReportSubmitted v = true ->
  let x' := appMessage StringToNumber currentTime now m x in
  ui (component x')
  = submitAll StringToNumber
      (map (fun fc => (now, fc_args fc)) (reportCalls m)) (ui (component x))
  /\ isConnected (component x') = isConnected (component x)
  /\ statusText (component x') = statusText (component x)
  /\ env x' = env x
  /\ exists l, wire x' = wire x ++ l
       /\ toolResponsesIn l
          = match currentSession v, reportCalls m with
            | Some session, _ :: _ =>
                [(session, map (acknowledgement now) (reportCalls m))]
            | _, _ => []
            end.
Proof.
  intros Hv Hl x'.
  destruct (appMessage_frame currentTime now m x v Hv)
    as (H1 & H2 & H3 & H4 & _ & H6).
  fold x' in H1, H2, H3, H4, H6. rewrite Hl, map_map in H4.
  repeat split; assumption.
Qed.

End ComponentRuns.

Section ComponentScenarios.

Context {utils : AudioUtils}.

Variable StringToNumber : string -> JsNumber.

(** Connecting from an idle component and hanging up. *)
Lemma toggle_on_off_frame (micGranted channelOpens : bool) (now1 now2 : Z)
    (x : AppSys) :
  isConnected (component x) = false ->
  holdsNothing (env x) ->
  let n := next_handle (env x) in
  let x2 := toggleConnection StringToNumber micGranted channelOpens now2
              (toggleConnection StringToNumber true true now1 x) in
  isConnected (component x2) = false
  /\ statusText (component x2) = "Ready"
  /\ ui (component x2) = ui (component x)
  /\ (exists v, geminiRef (component x2) = Some v
                /\ currentSession v = None /\ outputAudioContext v = None
                /\ onReportSubmitted v = true)
  /\ open_contexts (env x2) = ∅
  /\ live_streams (env x2) = ∅
  /\ wired_nodes (env x2) = ∅
  /\ capture_handlers (env x2) = ∅
  /\ open_channels (env x2) = {[(3 + n)%nat]}.
Proof.
  intros Hc (H1 & H2 & H3 & H4 & H5) n x2.
  pose proof (toggle_on_result StringToNumber now1 x Hc) as Hx1.
  cbv zeta in Hx1. fold n in Hx1.
  set (x1 := toggleConnection StringToNumber true true now1 x) in *.
  clearbody x1.
  assert (Hc1 : isConnected (component x1) = true) by (rewrite Hx1; reflexivity).
  assert (Hu1 : ui (component x1) = ui (component x)) by (rewrite Hx1; reflexivity).
  pose proof (f_equal (fun y => geminiRef (component y)) Hx1) as Hv1.
  cbn [component geminiRef] in Hv1.
  destruct (toggle_off_result StringToNumber micGranted channelOpens now2 x1 _
              Hc1 Hv1) as (R1 & R2 & R3 & R4 & R5 & _).
  fold x2 in R1, R2, R3, R4, R5.
  split; [exact R1|]. split; [exact R2|]. split; [rewrite R3; exact Hu1|].
  split.
  { eexists. split; [exact R4|]. rewrite svc_stop. repeat split. }
  rewrite R5.
  match goal with
  | |- context [stop ?s] =>
      destruct (world_stop s) as (S1 & S2 & S3 & S4 & S5 & _)
  end.
  rewrite S1, S2, S3, S4, S5. cbn [svc world handles inputAudioContext
    outputAudioContext stream processor source].
  rewrite Hx1. cbn [env open_contexts live_streams wired_nodes capture_handlers
                      open_channels].
  split; [apply acquired_pair_released, H1|].
  split; [apply acquired_one_released, H2|].
  split; [apply acquired_pair_released_swapped, H3|].
  split; [apply acquired_one_released, H4|].
  rewrite H5. apply union_empty_r_L.
Qed.

(** X17. Connecting from an idle component and then hanging up leaves the
    component disconnected with the status "Ready" (the "Disconnected" that
    [stop] reports is overwritten), the reports as they were and every device
    resource released; the channel that was opened stays open, since hanging
    up only stops the service. *)
Theorem toggle_on_then_off (micGranted channelOpens : bool) (now1 now2 : Z)
    (x : AppSys) :
  isConnected (component x) = false ->
  holdsNothing (env x) ->
  let n := next_handle (env x) in
  let x2 := toggleConnection StringToNumber micGranted channelOpens now2
              (toggleConnection StringToNumber true true now1 x) in
  isConnected (component x2) = false
  /\ statusText (component x2) = "Ready"
  /\ ui (component x2) = ui (component x)
  /\ open_contexts (env x2) = ∅
  /\ live_streams (env x2) = ∅
  /\ wired_nodes (env x2) = ∅
  /\ capture_handlers (env x2) = ∅
  /\ open_channels (env x2) = {[(3 + n)%nat]}.
Proof.
  intros Hc Hn n x2.
  destruct (toggle_on_off_frame micGranted channelOpens now1 now2 x Hc Hn)
    as (R1 & R2 & R3 & _ & R5 & R6 & R7 & R8 & R9).
  repeat split; assumption.
Qed.

(** X18. A tool call that arrives after the user has hung up.  The channel is
    still open and the stopped service still has its listeners, so each
    request named reportEmergency still becomes a report in the list; but no
    response is sent, because the session reference is gone. *)
Theorem late_tool_call_still_reported (micGranted channelOpens : bool)
    (now1 now2 now3 : Z) (currentTime : Q) (m : LiveServerMessage) (x : AppSys) :
  isConnected (component x) = false ->
  holdsNothing (env x) ->
  let x2 := toggleConnection StringToNumber micGranted channelOpens now2
              (toggleConnection StringToNumber true true now1 x) in
  let x3 := appMessage StringToNumber currentTime now3 m x2 in
  ui (component x3)
  = submitAll StringToNumber
      (map (fun fc => (now3, fc_args fc)) (reportCalls m)) (ui (component x))
  /\ isConnected (component x3) = false
  /\ statusText (component x3) = "Ready"
  /\ exists l, wire x3 = wire x2 ++ l /\ toolResponsesIn l = [].
Proof.
  intros Hc Hn x2 x3.
  destruct (toggle_on_off_frame micGranted channelOpens now1 now2 x Hc Hn)
    as (R1 & R2 & R3 & (v & Hv & Hs & _ & Hl) & _).
  fold x2 in R1, R2, R3, Hv. clearbody x2.
  destruct (appMessage_frame StringToNumber currentTime now3 m x2 v Hv)
    as (M1 & M2 & _ & M4 & _ & (l & Hw & Ht)).
  fold x3 in M1, M2, M4, Hw. rewrite Hl, map_map, R3 in M4. rewrite Hs in Ht.
  split; [exact M4|]. split; [rewrite M1; exact R1|].
  split; [rewrite M2; exact R2|]. exists l. split; assumption.
Qed.

End ComponentScenarios.

Section ComponentFailures.

Context {utils : AudioUtils}.

Variable StringToNumber : string -> JsNumber.

(** The state a connection attempt leads to when the microphone is refused. *)
Lemma toggle_denied_result (channelOpens : bool) (now : Z) (x : AppSys) :
  isConnected (component x) = false ->
  let n := next_handle (env x) in
  toggleConnection StringToNumber false channelOpens now x
  = {| component :=
         {| isConnected := false;
            statusText := "Connection Failed";
            audioLevel := audioLevel (component x);
            userLocation := userLocation (component x);
            showReports := showReports (component x);
            ui := ui (component x);
            geminiRef :=
              Some {| inputAudioContext := Some n;
                      outputAudioContext := Some (1 + n)%nat;
                      stream := None;
                      processor := None;
                      source := None;
                      nextStartTime := 0;
                      sessionPromise := None;
                      currentSession := None;
                      onReportSubmitted := true;
                      onAudioLevel := true;
                      onStatusChange := true |} |};
       env :=
         {| next_handle := (2 + n)%nat;
            open_contexts := {[(1 + n)%nat]} ∪ ({[n]} ∪ open_contexts (env x));
            live_streams := live_streams (env x);
            wired_nodes := wired_nodes (env x);
            capture_handlers := capture_handlers (env x);
            open_channels := open_channels (env x) |};
       wire := wire x
               ++ [StatusChange "Initializing Audio...";
                   StatusChange "Requesting Mic..."] |}.
Proof.
  intros H n. unfold toggleConnection. rewrite H. reflexivity.
Qed.

(** X19. A connection attempt that fails on the microphone leaves the
    component disconnected with the status "Connection Failed" and the two
    audio contexts it created open.  Nothing the component does later
    releases them: the next attempt works on a new service, so after a
    successful connection and a hang-up the two contexts are still open. *)
Theorem failed_attempt_leaks_contexts (c1 m3 c3 : bool) (now1 now2 now3 : Z)
    (x : AppSys) :
  isConnected (component x) = false ->
  let n := next_handle (env x) in
  let x1 := toggleConnection StringToNumber false c1 now1 x in
  let x3 := toggleConnection StringToNumber m3 c3 now3
              (toggleConnection StringToNumber true true now2 x1) in
  isConnected (component x1) = false
  /\ statusText (component x1) = "Connection Failed"
  /\ n ∈ open_contexts (env x1)
  /\ (1 + n)%nat ∈ open_contexts (env x1)
  /\ isConnected (component x3) = false
  /\ n ∈ open_contexts (env x3)
  /\ (1 + n)%nat ∈ open_contexts (env x3).
Proof.
  intros Hc n x1 x3.
  pose proof (toggle_denied_result c1 now1 x Hc) as Hx1.
  cbv zeta in Hx1. fold n x1 in Hx1. clearbody x1.
  assert (Hc1 : isConnected (component x1) = false) by (rewrite Hx1; reflexivity).
  assert (Hn1 : next_handle (env x1) = (2 + n)%nat) by (rewrite Hx1; reflexivity).
  assert (Ho1 : open_contexts (env x1)
                = {[(1 + n)%nat]} ∪ ({[n]} ∪ open_contexts (env x)))
    by (rewrite Hx1; reflexivity).
  split; [exact Hc1|]. split; [rewrite Hx1; reflexivity|].
  split; [rewrite Ho1, !elem_of_union, !elem_of_singleton; auto|].
  split; [rewrite Ho1, !elem_of_union, !elem_of_singleton; auto|].
  pose proof (toggle_on_result StringToNumber now2 x1 Hc1) as Hx2.
  cbv zeta in Hx2. rewrite Hn1 in Hx2.
  set (x2 := toggleConnection StringToNumber true true now2 x1) in *.
  clearbody x2.
  assert (Hc2 : isConnected (component x2) = true) by (rewrite Hx2; reflexivity).
  pose proof (f_equal (fun y => geminiRef (component y)) Hx2) as Hv2.
  cbn [component geminiRef] in Hv2.
  destruct (toggle_off_result StringToNumber m3 c3 now3 x2 _ Hc2 Hv2)
    as (R1 & _ & _ & _ & R5 & _).
  fold x3 in R1, R5. split; [exact R1|]. rewrite R5.
  match goal with
  | |- context [stop ?s] => destruct (world_stop s) as (S1 & _)
  end.
  rewrite S1. cbn [svc world handles inputAudioContext outputAudioContext].
  rewrite Hx2. cbn [env open_contexts]. rewrite Ho1.
  split; apply elem_of_difference; split;
    rewrite ?elem_of_union, ?elem_of_singleton; auto; lia.
Qed.

End ComponentFailures.

Section RemoteClose.

Context {utils : AudioUtils}.

Variable StringToNumber : string -> JsNumber.

(** X20. When the remote side closes the channel of a connection made from
    an idle component, everything is released and the status reads
    "Disconnected", but the component still counts as connected.  The next
    toggle therefore does not reconnect: it runs [stop] on the stopped
    service, which releases nothing, and only then is the component
    disconnected, with the status "Ready". *)
Theorem remote_close_needs_two_toggles (m3 c3 : bool) (now1 now2 now3 : Z)
    (x : AppSys) :
  isConnected (component x) = false ->
  holdsNothing (env x) ->
  let n := next_handle (env x) in
  let x1 := toggleConnection StringToNumber true true now1 x in
  let x2 := appClose StringToNumber (3 + n)%nat now2 x1 in
  let x3 := toggleConnection StringToNumber m3 c3 now3 x2 in
  isConnected (component x2) = true
  /\ statusText (component x2) = "Disconnected"
  /\ holdsNothing (env x2)
  /\ isConnected (component x3) = false
  /\ statusText (component x3) = "Ready"
  /\ env x3 = env x2
  /\ exists l, wire x3 = wire x2 ++ l /\ releasesIn l = [].
Proof.
  intros Hc (H1 & H2 & H3 & H4 & H5) n x1 x2 x3.
  pose proof (toggle_on_result StringToNumber now1 x Hc) as Hx1.
  cbv zeta in Hx1. fold n x1 in Hx1. clearbody x1.
  pose proof (f_equal (fun y => geminiRef (component y)) Hx1) as Hv1.
  cbn [component geminiRef] in Hv1.
  assert (Hx2 : isConnected (component x2) = true
                /\ statusText (component x2) = "Disconnected"
                /\ holdsNothing (env x2)
                /\ exists v, geminiRef (component x2) = Some v
                     /\ processor v = None /\ source v = None /\ stream v = None
                     /\ inputAudioContext v = None /\ outputAudioContext v = None
                     /\ currentSession v = None).
  { subst x2. unfold appClose, onService. rewrite Hv1.
    match goal with
    | |- context [onclose ?ch ?s] =>
        destruct (onclose_tears_down ch s) as (S0 & S1 & S2 & S3 & S4 & S5);
        pose proof (log_onclose ch s) as L;
        set (s2 := onclose ch s) in *
    end.
    clearbody s2. cbn [component env].
    destruct (deliver_fold StringToNumber now2 (log s2)
                (set_geminiRef (Some (svc s2)) (component x1)))
      as (D1 & _ & _ & D4 & D5 & _).
    rewrite D1, D4, D5. cbn [set_geminiRef isConnected geminiRef statusText].
    cbn [svc world log handles inputAudioContext outputAudioContext stream
           processor source onStatusChange app] in S0, S1, S2, S3, S4, S5, L.
    split; [rewrite Hx1; reflexivity|].
    split; [rewrite L; reflexivity|].
    split.
    - unfold holdsNothing. rewrite S1, S2, S3, S4, S5, Hx1.
      cbn [env open_contexts live_streams wired_nodes capture_handlers
             open_channels].
      split; [apply acquired_pair_released, H1|].
      split; [apply acquired_one_released, H2|].
      split; [apply acquired_pair_released_swapped, H3|].
      split; [apply acquired_one_released, H4|].
      apply acquired_one_released, H5.
    - eexists. split; [reflexivity|]. rewrite S0. repeat split. }
  clearbody x2.
  destruct Hx2 as (Hc2 & Hs2 & Hn2 & v2 & Hv2 & Fp & Fsrc & Fst & Fi & Fo & Fc).
  split; [exact Hc2|]. split; [exact Hs2|]. split; [exact Hn2|].
  destruct (toggle_off_result StringToNumber m3 c3 now3 x2 v2 Hc2 Hv2)
    as (R1 & R2 & _ & _ & R5 & R6).
  fold x3 in R1, R2, R5, R6.
  destruct (stop_when_cleared {| svc := v2; world := env x2; log := [] |}
              Fp Fsrc Fst Fi Fo Fc) as (_ & Ew & El).
  split; [exact R1|]. split; [exact R2|]. split; [rewrite R5; exact Ew|].
  eexists. split; [exact R6|]. rewrite El. cbn [log svc app].
  destruct (onStatusChange v2); reflexivity.
Qed.

End RemoteClose.

(** * Properties of the map and of the visualiser *)

(** X21. As soon as the report handler has run, the map flies to the new
    report, at zoom 15: to the location the handler resolved for it, whatever
    the user's position and the older reports are.  In particular a draft
    without usable coordinates, with no device position known, sends the map
    to the centre it starts from when the user's position is unknown. *)
Theorem map_flies_to_new_report StringToNumber (now : Z) (data : Draft.t)
    (a : AppState) (center : option GeoLocation) :
  mapUpdater center (reports (onReportSubmittedHandler StringToNumber now data a))
  = Some (FlyTo (resolveLocation StringToNumber data (userLocationRef a)).1 15)
  /\ (hasProvidedCoords StringToNumber data = false ->
      userLocationRef a = None ->
      mapUpdater center
        (reports (onReportSubmittedHandler StringToNumber now data a))
      = Some (FlyTo (mapCenter None) 15)).
Proof.
  unfold onReportSubmittedHandler.
  destruct (resolveLocation StringToNumber data (userLocationRef a))
    as [loc dev] eqn:E.
  split; [reflexivity|]. intros Hp Hr. cbn.
  unfold resolveLocation in E. rewrite Hp, Hr in E. cbn in E.
  injection E as <- _. reflexivity.
Qed.

(** X22. What the popup of a report shows.  The people count is shown as
    "Unknown" exactly when it is absent, not a number, or zero, and as the
    number itself otherwise; the needs are shown as "None specified" exactly
    when they are absent or empty (or literally that text). *)
Theorem popup_labels (peopleCount : option JsNumber) (criticalNeeds : option string) :
  (peopleLabel peopleCount = VString "Unknown"
   <-> peopleCount = None \/ peopleCount = Some NaN
       \/ exists q, peopleCount = Some (Num q) /\ (q == 0)%Q)
  /\ (peopleLabel peopleCount <> VString "Unknown" ->
      exists n, peopleCount = Some n /\ peopleLabel peopleCount = VNumber n)
  /\ (needsLabel criticalNeeds = "None specified"
      <-> criticalNeeds = None \/ criticalNeeds = Some ""
          \/ criticalNeeds = Some "None specified")
  /\ (needsLabel criticalNeeds <> "None specified" ->
      criticalNeeds = Some (needsLabel criticalNeeds)).
Proof.
  split; [|split; [|split]].
  - unfold peopleLabel. destruct peopleCount as [[| neg | q]|]; cbn.
    + split; auto.
    + split; [discriminate|].
      intros [H | [H | (q & H & _)]]; discriminate.
    + destruct (Qeq_bool q 0) eqn:E; cbn.
      * apply Qeq_bool_iff in E. split; [|reflexivity].
        intros _. right. right. exists q. split; [reflexivity | exact E].
      * split; [discriminate|].
        intros [H | [H | (q' & H & Hq)]]; try discriminate.
        injection H as ->. apply Qeq_bool_iff in Hq. congruence.
    + split; auto.
  - unfold peopleLabel. destruct peopleCount as [n|]; [|congruence].
    destruct (negb (isNaN n) && nonzero n); [|congruence].
    intros _. exists n. split; reflexivity.
  - unfold needsLabel. destruct criticalNeeds as [t|]; [|split; auto].
    destruct (String.eqb_spec t "") as [->|Hne].
    + split; auto.
    + split.
      * intros ->. right. right. reflexivity.
      * intros [H | [H | H]]; try discriminate; congruence.
  - unfold needsLabel. destruct criticalNeeds as [t|]; [|congruence].
    destruct (String.eqb t ""); [congruence | reflexivity].
Qed.

(** ** The smoothed level *)

Lemma approach_gap (level currentLevel : Q) :
  (level - approach level currentLevel == (8 # 10) * (level - currentLevel))%Q.
Proof. unfold approach. ring. Qed.

(** X23. The level the visualiser draws.  Starting from 0, each frame moves
    it a fifth of the remaining way to the target: after k frames of an
    active visualiser the distance to the target is the target times
    (4/5)^k.  For a target that is not negative it therefore never
    overshoots and never falls: it stays between 0 and the target and grows
    from frame to frame. *)
Theorem smoothed_level_converges (level : Q) (k : nat) :
  (0 <= level)%Q ->
  (level - levelAfter k level == level * (8 # 10) ^ Z.of_nat k)%Q
  /\ (0 <= levelAfter k level <= level)%Q
  /\ (levelAfter k level <= levelAfter (S k) level)%Q.
Proof.
  intros Hl.
  assert (Hgap : (level - levelAfter k level == level * (8 # 10) ^ Z.of_nat k)%Q).
  { induction k as [|k IH].
    - cbn [levelAfter]. change ((8 # 10) ^ Z.of_nat 0)%Q with 1%Q. ring.
    - cbn [levelAfter]. rewrite approach_gap, IH.
      rewrite Nat2Z.inj_succ, <- Z.add_1_l.
      rewrite (Qpower_plus (8 # 10) 1 (Z.of_nat k)) by (unfold Qeq; cbn; lia).
      change ((8 # 10) ^ 1)%Q with (8 # 10)%Q. ring. }
  assert (Hb : (0 <= levelAfter k level <= level)%Q).
  { clear Hgap. induction k as [|k IH]; [split; [apply Qle_refl | exact Hl]|].
    cbn [levelAfter]. unfold approach. destruct IH. split; lra. }
  split; [exact Hgap|]. split; [exact Hb|].
  cbn [levelAfter]. unfold approach. destruct Hb. lra.
Qed.

Lemma smoothed_level_converges_witness :
  ((1 # 2) - levelAfter 3 (1 # 2) == (1 # 2) * (8 # 10) ^ Z.of_nat 3)%Q
  /\ (0 <= levelAfter 3 (1 # 2) <= 1 # 2)%Q
  /\ (levelAfter 3 (1 # 2) <= levelAfter 4 (1 # 2))%Q.
Proof.
  apply (smoothed_level_converges (1 # 2) 3). unfold Qle. simpl. lia.
Defined.

Lemma Qmin_js_nonneg (a b : Q) : (0 <= a)%Q -> (0 <= b)%Q -> (0 <= Qmin_js a b)%Q.
Proof. intros Ha Hb. unfold Qmin_js. destruct (Qle_bool a b); assumption. Qed.

(** X24. What an active visualiser draws for a target level in [0,1] on a
    canvas of any size, after any number of frames: both radii are at least
    30 (so never negative), the filled circle has a radius of at most 80, and
    both opacities are valid, between 0.2 and 0.7 for the fill and between
    0.2 and 0.5 for the ripple.  An inactive visualiser draws nothing. *)
Theorem drawing_within_bounds (width height level : Q) (k : nat) :
  (0 <= width)%Q -> (0 <= height)%Q -> (0 <= level <= 1)%Q ->
  draw false width height level (levelAfter k level) = None
  /\ exists d,
       draw true width height level (levelAfter k level)
       = Some (levelAfter (S k) level, d)
       /\ (30 <= baseRadius d <= 80)%Q
       /\ (30 <= rippleRadius d)%Q
       /\ (2 # 10 <= fillAlpha d <= 7 # 10)%Q
       /\ (2 # 10 <= strokeAlpha d <= 5 # 10)%Q.
Proof.
  intros Hw Hh [Hl0 Hl1]. split; [reflexivity|].
  eexists. split; [reflexivity|].
  assert (Hb : (0 <= levelAfter (S k) level <= level)%Q).
  { clear Hw Hh. generalize (S k). intros j.
    induction j as [|j IH]; [split; [apply Qle_refl | exact Hl0]|].
    cbn [levelAfter]. unfold approach. destruct IH. split; lra. }
  change (approach level (levelAfter k level)) with (levelAfter (S k) level).
  set (c := levelAfter (S k) level) in *. clearbody c. destruct Hb as [Hc0 Hc1].
  cbn [drawing baseRadius rippleRadius fillAlpha strokeAlpha].
  split; [split; lra|]. split; [|split; split; lra].
  assert (Hm : (0 <= Qmin_js (width / 2) (height / 2) * (8 # 10))%Q).
  { apply Qmult_le_0_compat; [|discriminate].
    apply Qmin_js_nonneg; apply Qle_shift_div_l; try reflexivity; lra. }
  pose proof (Qmult_le_0_compat _ _ Hc0 Hm). lra.
Qed.

Lemma drawing_within_bounds_witness :
  draw false 200 200 (3 # 4) (levelAfter 5 (3 # 4)) = None
  /\ exists d,
       draw true 200 200 (3 # 4) (levelAfter 5 (3 # 4))
       = Some (levelAfter 6 (3 # 4), d)
       /\ (30 <= baseRadius d <= 80)%Q
       /\ (30 <= rippleRadius d)%Q
       /\ (2 # 10 <= fillAlpha d <= 7 # 10)%Q
       /\ (2 # 10 <= strokeAlpha d <= 5 # 10)%Q.
Proof.
  apply (drawing_within_bounds 200 200 (3 # 4) 5);
    [ | | split]; unfold Qle; simpl; lia.
Defined.

(** * Instances of the properties that have a precondition *)

Lemma audio_skipped_leaves_playhead_witness :
  let s' := handleMessage (utils := specAudioUtils) (7 # 2) 1700000000000
              fireMessage live in
  svc s' = svc live
  /\ world s' = world live
  /\ startsIn (emitted live s') = []
  /\ consoleErrorsIn (emitted live s') = [].
Proof.
  apply (audio_skipped_leaves_playhead (utils := specAudioUtils)
           (7 # 2) 1700000000000 fireMessage live).
  right. left. reflexivity.
Defined.

Lemma toggle_on_goes_live_witness :
  let x' := toggleConnection digitsOnly true true 1700000000000 initialAppSys in
  isConnected (component x') = true
  /\ statusText (component x') = "Live"
  /\ ui (component x') = ui (component initialAppSys)
  /\ (exists v, geminiRef (component x') = Some v
                /\ currentSession v = Some 3%nat
                /\ onReportSubmitted v = true /\ onAudioLevel v = true
                /\ onStatusChange v = true)
  /\ wire x'
     = wire initialAppSys
       ++ [StatusChange "Initializing Audio..."; StatusChange "Requesting Mic...";
           StatusChange "Connecting to HQ...";
           LiveConnect 3%nat (userLocationRef (ui (component initialAppSys)));
           StatusChange "Live"]
  /\ open_contexts (env x') = {[0; 1]}%nat ∪ open_contexts (env initialAppSys)
  /\ live_streams (env x') = {[2%nat]} ∪ live_streams (env initialAppSys)
  /\ open_channels (env x') = {[3%nat]} ∪ open_channels (env initialAppSys).
Proof.
  apply (toggle_on_goes_live digitsOnly 1700000000000 initialAppSys).
  reflexivity.
Defined.

Lemma message_reports_reach_component_witness :
  let x := toggleConnection digitsOnly true true 1700000000000 initialAppSys in
  let x' := appMessage (utils := specAudioUtils) digitsOnly 0 1700000000500
              fireMessage x in
  ui (component x')
  = submitAll digitsOnly
      (map (fun fc => (1700000000500, fc_args fc)) (reportCalls fireMessage))
      (ui (component x))
  /\ isConnected (component x') = isConnected (component x)
  /\ statusText (component x') = statusText (component x)
  /\ env x' = env x
  /\ exists l, wire x' = wire x ++ l
       /\ toolResponsesIn l
          = match currentSession (svc live), reportCalls fireMessage with
            | Some session, _ :: _ =>
                [(session, map (acknowledgement 1700000000500)
                             (reportCalls fireMessage))]
            | _, _ => []
            end.
Proof.
  apply (message_reports_reach_component (utils := specAudioUtils) digitsOnly
           0 1700000000500 fireMessage
           (toggleConnection digitsOnly true true 1700000000000 initialAppSys)
           (svc live)); reflexivity.
Defined.

Lemma toggle_on_then_off_witness :
  let x2 := toggleConnection digitsOnly true true 1700000009000
              (toggleConnection digitsOnly true true 1700000000000 initialAppSys) in
  isConnected (component x2) = false
  /\ statusText (component x2) = "Ready"
  /\ ui (component x2) = ui (component initialAppSys)
  /\ open_contexts (env x2) = ∅
  /\ live_streams (env x2) = ∅
  /\ wired_nodes (env x2) = ∅
  /\ capture_handlers (env x2) = ∅
  /\ open_channels (env x2) = {[3%nat]}.
Proof.
  apply (toggle_on_then_off digitsOnly true true 1700000000000 1700000009000
           initialAppSys); [reflexivity | repeat split; reflexivity].
Defined.

Lemma late_tool_call_still_reported_witness :
  let x2 := toggleConnection digitsOnly true true 1700000009000
              (toggleConnection digitsOnly true true 1700000000000 initialAppSys) in
  let x3 := appMessage (utils := specAudioUtils) digitsOnly (12 # 1)
              1700000009500 fireMessage x2 in
  ui (component x3)
  = submitAll digitsOnly
      (map (fun fc => (1700000009500, fc_args fc)) (reportCalls fireMessage))
      (ui (component initialAppSys))
  /\ isConnected (component x3) = false
  /\ statusText (component x3) = "Ready"
  /\ exists l, wire x3 = wire x2 ++ l /\ toolResponsesIn l = [].
Proof.
  apply (late_tool_call_still_reported (utils := specAudioUtils) digitsOnly
           true true 1700000000000 1700000009000 1700000009500 (12 # 1)
           fireMessage initialAppSys); [reflexivity | repeat split; reflexivity].
Defined.

Lemma failed_attempt_leaks_contexts_witness :
  let x1 := toggleConnection digitsOnly false true 1700000000000 initialAppSys in
  let x3 := toggleConnection digitsOnly true true 1700000009000
              (toggleConnection digitsOnly true true 1700000005000 x1) in
  isConnected (component x1) = false
  /\ statusText (component x1) = "Connection Failed"
  /\ 0%nat ∈ open_contexts (env x1)
  /\ 1%nat ∈ open_contexts (env x1)
  /\ isConnected (component x3) = false
  /\ 0%nat ∈ open_contexts (env x3)
  /\ 1%nat ∈ open_contexts (env x3).
Proof.
  apply (failed_attempt_leaks_contexts digitsOnly true true true
           1700000000000 1700000005000 1700000009000 initialAppSys).
  reflexivity.
Defined.

Lemma remote_close_needs_two_toggles_witness :
  let x1 := toggleConnection digitsOnly true true 1700000000000 initialAppSys in
  let x2 := appClose digitsOnly 3%nat 1700000005000 x1 in
  let x3 := toggleConnection digitsOnly true true 1700000009000 x2 in
  isConnected (component x2) = true
  /\ statusText (component x2) = "Disconnected"
  /\ holdsNothing (env x2)
  /\ isConnected (component x3) = false
  /\ statusText (component x3) = "Ready"
  /\ env x3 = env x2
  /\ exists l, wire x3 = wire x2 ++ l /\ releasesIn l = [].
Proof.
  apply (remote_close_needs_two_toggles digitsOnly true true
           1700000000000 1700000005000 1700000009000 initialAppSys);
    [reflexivity | repeat split; reflexivity].
Defined.

(** * The window between on-open and the resolved promise *)

Section BeforeResolution.

Context {utils : AudioUtils}.

Lemma connect_begin_open (userLocation : option GeoLocation) (s : Sys) :
  let n := next_handle (world s) in
  let s1 := handleOpen (connect_begin true userLocation s).2 in
  (connect_begin true userLocation s).1 = inr (3 + n)%nat
  /\ currentSession (svc s1) = currentSession (svc s)
  /\ svc (connect true true userLocation s).2
     = svc (connect_resolved (3 + n)%nat s1)
  /\ world (connect true true userLocation s).2 = world s1
  /\ inputAudioContext (svc s1) = Some n
  /\ outputAudioContext (svc s1) = Some (1 + n)%nat
  /\ stream (svc s1) = Some (2 + n)%nat
  /\ source (svc s1) = Some (4 + n)%nat
  /\ processor (svc s1) = Some (5 + n)%nat.
Proof.
  destruct s as [[i o st p src t sp cs r1 r2 r3] w l].
  destruct r3; repeat split.
Qed.

Lemma connect_begin_open_world (userLocation : option GeoLocation) (s : Sys) :
  let n := next_handle (world s) in
  let s1 := handleOpen (connect_begin true userLocation s).2 in
  open_contexts (world s1) = {[n; (1 + n)%nat]} ∪ open_contexts (world s)
  /\ live_streams (world s1) = {[(2 + n)%nat]} ∪ live_streams (world s)
  /\ open_channels (world s1) = {[(3 + n)%nat]} ∪ open_channels (world s)
  /\ wired_nodes (world s1)
     = {[(4 + n)%nat; (5 + n)%nat]} ∪ wired_nodes (world s)
  /\ capture_handlers (world s1) = {[(5 + n)%nat]} ∪ capture_handlers (world s).
Proof.
  destruct s as [[i o st p src t sp cs r1 r2 r3] w l].
  destruct r3; cbn; unfold acquired; repeat split; try reflexivity;
    apply acquired_twice.
Qed.

(** Frames before and after the session reference is stored. *)
Lemma frames_around_resolution (frames : list (list Q)) (s1 : Sys) (ch : handle) :
  currentSession (svc s1) = None ->
  realtimeInputsIn (emitted s1 (captureAll frames s1)) = []
  /\ realtimeInputsIn (emitted (connect_resolved ch s1)
                         (captureAll frames (connect_resolved ch s1)))
     = map (fun inputData =>
              (ch, arrayBufferToBase64 (float32ToInt16PCM inputData))) frames.
Proof.
  intros Hc.
  destruct (captureAll_frame frames s1) as (L1 & _).
  destruct (captureAll_frame frames (connect_resolved ch s1)) as (L2 & _).
  change (svc (connect_resolved ch s1))
    with (set_currentSession (Some ch) (svc s1)) in L2.
  cbn [set_currentSession currentSession onAudioLevel] in L2.
  rewrite Hc in L1.
  generalize dependent (captureAll frames s1).
  generalize dependent (captureAll frames (connect_resolved ch s1)).
  intros c2 L2 c1 L1.
  rewrite (emitted_app _ _ _ L1), (emitted_app _ _ _ L2).
  clear. unfold realtimeInputsIn. split.
  - induction frames as [|f frames IH]; [reflexivity|].
    cbn [flat_map]. rewrite !omap_app, IH.
    destruct (onAudioLevel (svc s1)); reflexivity.
  - induction frames as [|f frames IH]; [reflexivity|].
    cbn [flat_map map]. rewrite !omap_app, IH.
    destruct (onAudioLevel (svc s1)); reflexivity.
Qed.

(** X25. Capture frames that fire after the channel has opened but before
    the promise awaited by [connect] has resolved are dropped: the capture
    handler is installed by the on-open callback, while the session reference
    the handler sends through is stored only afterwards.  From then on every
    frame is sent to the new session. *)
Theorem frames_before_resolution_dropped (userLocation : option GeoLocation)
    (frames : list (list Q)) (s : Sys) :
  currentSession (svc s) = None ->
  let n := next_handle (world s) in
  let s1 := handleOpen (connect_begin true userLocation s).2 in
  let s2 := connect_resolved (3 + n)%nat s1 in
  (5 + n)%nat ∈ capture_handlers (world s1)
  /\ realtimeInputsIn (emitted s1 (captureAll frames s1)) = []
  /\ realtimeInputsIn (emitted s2 (captureAll frames s2))
     = map (fun inputData =>
              ((3 + n)%nat, arrayBufferToBase64 (float32ToInt16PCM inputData)))
         frames.
Proof.
  intros Hs.
  pose proof (connect_begin_open userLocation s) as F.
  pose proof (connect_begin_open_world userLocation s) as W.
  cbv zeta in F, W |- *.
  destruct F as (_ & Hc & _). destruct W as (_ & _ & _ & _ & W5).
  rewrite Hs in Hc.
  split; [rewrite W5; apply elem_of_union; left; apply elem_of_singleton;
          reflexivity|].
  exact (frames_around_resolution frames _ _ Hc).
Qed.

End BeforeResolution.

Lemma frames_before_resolution_dropped_witness :
  let frames := [[1 # 2; -1]; [0; 1 # 4]]%Q in
  let s1 := handleOpen (connect_begin true None (initial true true true)).2 in
  let s2 := connect_resolved 3%nat s1 in
  5%nat ∈ capture_handlers (world s1)
  /\ realtimeInputsIn (emitted s1 (captureAll (utils := specAudioUtils) frames s1)) = []
  /\ realtimeInputsIn (emitted s2 (captureAll (utils := specAudioUtils) frames s2))
     = map (fun inputData =>
              (3%nat, arrayBufferToBase64 (AudioUtils := specAudioUtils)
                        (float32ToInt16PCM (AudioUtils := specAudioUtils) inputData)))
         frames.
Proof.
  apply (frames_before_resolution_dropped (utils := specAudioUtils) None
           [[1 # 2; -1]; [0; 1 # 4]]%Q (initial true true true)).
  reflexivity.
Defined.

(** [stop] and then the late assignment of the session, on a service that
    holds exactly the resources its fields refer to. *)
Lemma resolved_after_stop (s1 : Sys) (n : nat) :
  inputAudioContext (svc s1) = Some n ->
  outputAudioContext (svc s1) = Some (1 + n)%nat ->
  stream (svc s1) = Some (2 + n)%nat ->
  source (svc s1) = Some (4 + n)%nat ->
  processor (svc s1) = Some (5 + n)%nat ->
  open_contexts (world s1) = {[n; (1 + n)%nat]} ∪ ∅ ->
  live_streams (world s1) = {[(2 + n)%nat]} ∪ ∅ ->
  open_channels (world s1) = {[(3 + n)%nat]} ∪ ∅ ->
  wired_nodes (world s1) = {[(4 + n)%nat; (5 + n)%nat]} ∪ ∅ ->
  capture_handlers (world s1) = {[(5 + n)%nat]} ∪ ∅ ->
  currentSession (svc (connect_resolved (3 + n)%nat (stop s1))) = Some (3 + n)%nat
  /\ inputAudioContext (svc (connect_resolved (3 + n)%nat (stop s1))) = None
  /\ outputAudioContext (svc (connect_resolved (3 + n)%nat (stop s1))) = None
  /\ stream (svc (connect_resolved (3 + n)%nat (stop s1))) = None
  /\ processor (svc (connect_resolved (3 + n)%nat (stop s1))) = None
  /\ source (svc (connect_resolved (3 + n)%nat (stop s1))) = None
  /\ open_contexts (world (connect_resolved (3 + n)%nat (stop s1))) = ∅
  /\ live_streams (world (connect_resolved (3 + n)%nat (stop s1))) = ∅
  /\ wired_nodes (world (connect_resolved (3 + n)%nat (stop s1))) = ∅
  /\ capture_handlers (world (connect_resolved (3 + n)%nat (stop s1))) = ∅
  /\ open_channels (world (connect_resolved (3 + n)%nat (stop s1)))
     = {[(3 + n)%nat]}.
Proof.
  intros Fi Fo Fs Fsrc Fp W1 W2 W3 W4 W5.
  destruct (world_stop s1) as (S1 & S2 & S3 & S4 & S5 & _).
  rewrite Fi, Fo in S1. rewrite Fs in S2. rewrite Fp, Fsrc in S3.
  rewrite Fp in S4. rewrite W1 in S1. rewrite W2 in S2. rewrite W4 in S3.
  rewrite W5 in S4. rewrite W3 in S5.
  pose proof (svc_stop s1) as Hsvc.
  generalize dependent (stop s1). intros s2 S1 S2 S3 S4 S5 Hsvc.
  unfold connect_resolved, with_svc. cbn [svc world]. rewrite Hsvc, S1, S2, S3, S4, S5.
  clear. generalize (svc s1). intros v.
  do 6 (split; [reflexivity|]).
  split; [apply release_pair|]. split; [apply release_single|].
  split; [apply release_pair_swapped|]. split; [apply release_single|].
  apply union_empty_r_L.
Qed.

(** X26. A [stop] that lands between on-open and the resolution of the
    promise releases the device resources, but the interrupted [connect] then
    still stores the session: the service ends up holding a session reference
    and an open channel with every other field null. *)
Theorem stop_before_resolution_keeps_session (userLocation : option GeoLocation)
    (s : Sys) :
  holdsNothing (world s) ->
  let n := next_handle (world s) in
  let s1 := handleOpen (connect_begin true userLocation s).2 in
  let s3 := connect_resolved (3 + n)%nat (stop s1) in
  currentSession (svc s3) = Some (3 + n)%nat
  /\ inputAudioContext (svc s3) = None /\ outputAudioContext (svc s3) = None
  /\ stream (svc s3) = None /\ processor (svc s3) = None /\ source (svc s3) = None
  /\ open_contexts (world s3) = ∅
  /\ live_streams (world s3) = ∅
  /\ wired_nodes (world s3) = ∅
  /\ capture_handlers (world s3) = ∅
  /\ open_channels (world s3) = {[(3 + n)%nat]}.
Proof.
  intros (H1 & H2 & H3 & H4 & H5).
  pose proof (connect_begin_open userLocation s) as F.
  pose proof (connect_begin_open_world userLocation s) as W.
  cbv zeta in F, W |- *.
  destruct F as (_ & _ & _ & _ & Fi & Fo & Fs & Fsrc & Fp).
  destruct W as (W1 & W2 & W3 & W4 & W5).
  rewrite H1 in W1. rewrite H2 in W2. rewrite H5 in W3. rewrite H3 in W4.
  rewrite H4 in W5.
  exact (resolved_after_stop _ _ Fi Fo Fs Fsrc Fp W1 W2 W3 W4 W5).
Qed.

Lemma stop_before_resolution_keeps_session_witness :
  let s1 := handleOpen (connect_begin true None (initial true true true)).2 in
  let s3 := connect_resolved 3%nat (stop s1) in
  currentSession (svc s3) = Some 3%nat
  /\ inputAudioContext (svc s3) = None /\ outputAudioContext (svc s3) = None
  /\ stream (svc s3) = None /\ processor (svc s3) = None /\ source (svc s3) = None
  /\ open_contexts (world s3) = ∅
  /\ live_streams (world s3) = ∅
  /\ wired_nodes (world s3) = ∅
  /\ capture_handlers (world s3) = ∅
  /\ open_channels (world s3) = {[3%nat]}.
Proof.
  apply (stop_before_resolution_keeps_session None (initial true true true)).
  repeat split; reflexivity.
Defined.

Lemma tool_calls_over_messages_witness :
  let ms := [(0%Q, 1700000000000, fireMessage);
             ((1 # 2)%Q, 1700000000400,
              {| inlineData := Some "";
                 toolCall := Some [{| fc_id := "call-2"; fc_name := "lookupWeather";
                                      fc_args := fireDraft |}] |});
             ((3 # 4)%Q, 1700000000900,
              {| inlineData := None;
                 toolCall := Some [{| fc_id := "call-3"; fc_name := "reportEmergency";
                                      fc_args := fireDraft |};
                                   {| fc_id := "call-4"; fc_name := "reportEmergency";
                                      fc_args := fireDraft |}] |})] in
  let out := emitted live (handleAll (utils := specAudioUtils) ms live) in
  reportsIn out
  = (if onReportSubmitted (svc live)
     then flat_map (fun x => map fc_args (reportCalls x.2)) ms else [])
  /\ toolResponsesIn out
     = match currentSession (svc live) with
       | Some session =>
           flat_map (fun x => match reportCalls x.2 with
                              | [] => []
                              | _ :: _ =>
                                  [(session,
                                    map (acknowledgement x.1.2) (reportCalls x.2))]
                              end) ms
       | None => []
       end
  /\ svc (handleAll (utils := specAudioUtils) ms live) = svc live.
Proof.
  apply (tool_calls_over_messages (utils := specAudioUtils)).
  repeat constructor; cbn [snd]; intros (b & c & H1 & H2 & _);
    try discriminate; injection H1 as <-; apply H2; reflexivity.
Defined.
